(** * The session coordinator of the ROIP chat client (App.tsx, types.ts)

    A shallow embedding of [AppProvider]: the React state it owns, the
    operations it hands to its consumers ([sendMessage], [shareLocation],
    [initiateCall], [endCall]) and the effects it registers (message reload,
    presence, permission request, notification, dedupe reset).

    Conventions of the embedding.
    - The state cells of [AppProvider] and the world it talks to (the
      persistence of userService, the clock behind [Date.now], the calls made
      to rtcService, the notifications raised) are the fields of one record,
      [State], threaded explicitly.
    - JavaScript runs one task at a time: the states other code can see are
      the ones at the [await]s and at completion.  An async operation is given
      as its synchronous segments, and the value an awaited collaborator
      settles with is an argument of the operation ([Settled]).
    - The services imported by App.tsx (userService, locationService,
      rtcService, geminiService) are not part of the sources at hand; what the
      coordinator needs of them is taken from section 6 of the specification.
    - Strings are UTF-8 byte strings and the texts of the source are kept as
      they are; where the source measures or cuts a string, the UTF-16 code
      units of JavaScript are counted ([utf16Length], [utf16Prefix]). *)

From stdpp Require Import base strings gmap list pretty.

Local Open Scope Z_scope.

(** ** JavaScript values that can be thrown or rejected with *)

(** Primitive values.  A number is given by the text that
    Number.prototype.toString prints for it ("1", "0.5", "1e+21", "NaN"):
    the text tells the numbers apart, but for 0 and -0, which nothing in the
    coordinator tells apart either.  Symbols and BigInts are among the
    values of [JsAny] below. *)
Inductive JsPrimitive : Type :=
  | JsUndefined
  | JsNull
  | JsBoolean (b : bool)
  | JsNumber (text : string)
  | JsString (s : string).

(** The failure values a position fetch rejects with: a primitive, a plain
    object (an object literal, a GeolocationPositionError: not an
    [instanceof Error]) or an [Error] instance, which owns a string [message]
    next to its other properties.  Properties hold primitives. *)
Inductive JsValue : Type :=
  | Prim (p : JsPrimitive)
  | PlainObj (props : list (string * JsPrimitive))
  | ErrorObj (message : string) (props : list (string * JsPrimitive)).

(** What an awaited promise settles with. *)
Inductive Settled (A : Type) : Type :=
  | Fulfilled (a : A)
  | Rejected (error : JsValue).
Arguments Fulfilled {A} a.
Arguments Rejected {A} error.

(** The completion of a synchronous computation. *)
Inductive Completion (A : Type) : Type :=
  | Normal (a : A)
  | Throw (error : JsValue).
Arguments Normal {A} a.
Arguments Throw {A} error.

Definition ownProperties (v : JsValue) : list (string * JsPrimitive) :=
  match v with
  | Prim _ => []
  | PlainObj props => props
  | ErrorObj message props => ("message", JsString message) :: props
  end.

Fixpoint lookupProperty (key : string) (props : list (string * JsPrimitive))
  : option JsPrimitive :=
  match props with
  | [] => None
  | (k, v) :: rest => if String.eqb k key then Some v else lookupProperty key rest
  end.

(** The data properties found on the prototype chain: [Error.prototype] has
    [name] and [message]; [Object.prototype] has none. *)
Definition prototypeProperty (key : string) (v : JsValue) : option JsPrimitive :=
  match v with
  | ErrorObj _ _ =>
      if String.eqb key "message" then Some (JsString "")
      else if String.eqb key "name" then Some (JsString "Error")
      else None
  | _ => None
  end.

(** The method names every object inherits. *)
Definition inheritedMethods (v : JsValue) : list string :=
  match v with
  | Prim _ => []
  | _ => ["constructor"; "toString"; "toLocaleString"; "valueOf";
          "hasOwnProperty"; "isPrototypeOf"; "propertyIsEnumerable"]
  end.

(** [key in v], for an object [v]. *)
Definition hasProperty (key : string) (v : JsValue) : bool :=
  match lookupProperty key (ownProperties v), prototypeProperty key v with
  | Some _, _ | None, Some _ => true
  | None, None => existsb (String.eqb key) (inheritedMethods v)
  end.

(** [v.key], for a key that names a data property ([code], [message]). *)
Definition getProperty (key : string) (v : JsValue) : JsPrimitive :=
  match lookupProperty key (ownProperties v) with
  | Some p => p
  | None => default JsUndefined (prototypeProperty key v)
  end.

(** ToBoolean. *)
Definition truthy (p : JsPrimitive) : bool :=
  match p with
  | JsUndefined | JsNull => false
  | JsBoolean b => b
  | JsNumber text => (negb (String.eqb text "0") && negb (String.eqb text "NaN"))%bool
  | JsString s => negb (String.eqb s "")
  end.

(** [p === n] for the number whose text is [n]. *)
Definition strictEqualsNumber (n : string) (p : JsPrimitive) : bool :=
  match p with
  | JsNumber text => String.eqb text n
  | _ => false
  end.

(** ToString on a primitive, as a template literal applies it. *)
Definition primToString (p : JsPrimitive) : string :=
  match p with
  | JsUndefined => "undefined"
  | JsNull => "null"
  | JsBoolean true => "true"
  | JsBoolean false => "false"
  | JsNumber text => text
  | JsString s => s
  end.

Definition typeError (message : string) : JsValue :=
  ErrorObj message [("name", JsString "TypeError")].

(** [String(v)].  An object is converted through its [toString] method: the
    inherited one, unless an own property shadows it; an own property holds a
    primitive here, which cannot be called, and [valueOf] then yields no
    primitive either, so the conversion throws. *)
Definition jsString (v : JsValue) : Completion string :=
  match v with
  | Prim p => Normal (primToString p)
  | PlainObj props =>
      match lookupProperty "toString" props with
      | Some _ => Throw (typeError "Cannot convert object to primitive value")
      | None => Normal "[object Object]"
      end
  | ErrorObj _ props =>
      match lookupProperty "toString" props with
      | Some _ => Throw (typeError "Cannot convert object to primitive value")
      | None =>
          let name := primToString (getProperty "name" v) in
          let msg := primToString (getProperty "message" v) in
          Normal (if String.eqb name "" then msg
                  else if String.eqb msg "" then name
                  else name +:+ ": " +:+ msg)
      end
  end.

(** [toLowerCase], on the ASCII letters. *)
Definition lowerAscii (a : Ascii.ascii) : Ascii.ascii :=
  let n := Ascii.nat_of_ascii a in
  if (Nat.leb 65 n && Nat.leb n 90)%bool then Ascii.ascii_of_nat (n + 32) else a.

Fixpoint toLowerCase (s : string) : string :=
  match s with
  | EmptyString => EmptyString
  | String a rest => String (lowerAscii a) (toLowerCase rest)
  end.

(** ** The error normalisation of [shareLocation] (the [catch] block,
       lines 287-322): the value of [userFriendlyMessage] when the block
       reaches its [sendMessage]. *)
Definition userFriendlyMessage (error : JsValue) : Completion string :=
  match error with
  | Prim (JsString s) => Normal s
  | Prim _ => Normal "Une erreur inconnue est survenue lors du partage de la position."
  | PlainObj _ | ErrorObj _ _ =>
      if (hasProperty "code" error && hasProperty "message" error)%bool then
        let code := getProperty "code" error in
        if strictEqualsNumber "1" code
        then Normal "Permission de géolocalisation refusée par l'utilisateur."
        else if strictEqualsNumber "2" code
        then Normal "Information de position non disponible."
        else if strictEqualsNumber "3" code
        then Normal "La demande de position a expiré."
        else
          let message := getProperty "message" error in
          Normal ("Erreur de géolocalisation: "
                  +:+ primToString (if truthy message then message else JsString "Inconnue")
                  +:+ " (code " +:+ primToString code +:+ ").")
      else
        match error with
        | ErrorObj message _ => Normal message
        | _ =>
            match jsString error with
            | Normal text =>
                if String.eqb (toLowerCase text) "[object object]"
                then Normal "Détails de l'erreur non disponibles."
                else Normal text
            | Throw _ =>
                Normal "Détails de l'erreur non disponibles (conversion en chaîne impossible)."
            end
        end
  end.

(** ** The error normalisation over every JavaScript value

    The [catch] block does a fixed series of things to the value it caught:
    [typeof], ['code' in], ['message' in], reading [code], reading
    [message], [instanceof Error], [String(...)], and the conversions of a
    template literal.  An object, whatever it is (an array, a proxy, an
    object with accessors or with a [toString] of its own), is given by what
    it answers to each of them. *)

(** What an operation on a value comes to: a result, or an exception. *)
Inductive Answer (A : Type) : Type :=
  | Gives (a : A)
  | Raises.
Arguments Gives {A} a.
Arguments Raises {A}.

Definition andThen {A B : Type} (x : Answer A) (f : A → Answer B) : Answer B :=
  match x with
  | Gives a => f a
  | Raises => Raises
  end.

(** The answers of an object, in the order in which the [catch] block asks.
    [typeofIsObject] is false for a function.  [code] is read twice on the
    way to the generic text (in the [switch] and in the template literal).
    [converted] is the conversion to a string, which [String(...)] and a
    template literal share for an object.  [toBoolean] is what [||] sees of
    the object when it is itself read from [message]: true, but for
    [document.all]. *)
Record ObjectAnswers (V : Type) : Type := {
  typeofIsObject : bool;
  toBoolean : bool;
  inCode : Answer bool;
  inMessage : Answer bool;
  readCode : Answer V;
  readMessage : Answer V;
  readCodeAgain : Answer V;
  instanceofError : Answer bool;
  converted : Answer string
}.
Arguments typeofIsObject {V} _.
Arguments toBoolean {V} _.
Arguments inCode {V} _.
Arguments inMessage {V} _.
Arguments readCode {V} _.
Arguments readMessage {V} _.
Arguments readCodeAgain {V} _.
Arguments instanceofError {V} _.
Arguments converted {V} _.

(** Any JavaScript value.  A number is given by its text, as in
    [JsPrimitive]; a BigInt by its value; an object by its answers. *)
#[warnings="-register-all"]
Inductive JsAny : Type :=
  | AnyUndefined
  | AnyNull
  | AnyBoolean (b : bool)
  | AnyNumber (text : string)
  | AnyBigInt (n : Z)
  | AnyString (s : string)
  | AnySymbol
  | AnyObject (o : ObjectAnswers JsAny).

(** [v === n] for the number whose text is [n]. *)
Definition isNumber (n : string) (v : JsAny) : bool :=
  match v with
  | AnyNumber text => String.eqb text n
  | _ => false
  end.

(** ToBoolean. *)
Definition isTruthy (v : JsAny) : bool :=
  match v with
  | AnyUndefined | AnyNull => false
  | AnyBoolean b => b
  | AnyNumber text => (negb (String.eqb text "0") && negb (String.eqb text "NaN"))%bool
  | AnyBigInt n => negb (Z.eqb n 0)
  | AnyString s => negb (String.eqb s "")
  | AnySymbol => true
  | AnyObject o => toBoolean o
  end.

(** The conversion a template literal applies to a substitution: a symbol
    makes it throw. *)
Definition templateText (v : JsAny) : Answer string :=
  match v with
  | AnyUndefined => Gives "undefined"
  | AnyNull => Gives "null"
  | AnyBoolean true => Gives "true"
  | AnyBoolean false => Gives "false"
  | AnyNumber text => Gives text
  | AnyBigInt n => Gives (pretty n)
  | AnyString s => Gives s
  | AnySymbol => Raises
  | AnyObject o => converted o
  end.

(** Lines 287-324 for any caught value: the text that line 324 splices into
    the chat message after the prefix, i.e. [userFriendlyMessage] as the
    template literal converts it; [Raises] when an exception escapes the
    [catch] block before the message is sent. *)
Definition userFriendlyText (error : JsAny) : Answer string :=
  let unknown := "Une erreur inconnue est survenue lors du partage de la position." in
  match error with
  | AnyString s => Gives s
  | AnyObject o =>
      if typeofIsObject o then
        andThen (andThen (inCode o) (λ found : bool,
                   if found then inMessage o else Gives false))
          (λ geolocation : bool,
             if geolocation then
               andThen (readCode o) (λ code,
                 if isNumber "1" code
                 then Gives "Permission de géolocalisation refusée par l'utilisateur."
                 else if isNumber "2" code
                 then Gives "Information de position non disponible."
                 else if isNumber "3" code
                 then Gives "La demande de position a expiré."
                 else
                   andThen (readMessage o) (λ message,
                   andThen (templateText (if isTruthy message then message
                                          else AnyString "Inconnue")) (λ messageText,
                   andThen (readCodeAgain o) (λ codeAgain,
                   andThen (templateText codeAgain) (λ codeText,
                   Gives ("Erreur de géolocalisation: " +:+ messageText
                          +:+ " (code " +:+ codeText +:+ ").") )))))
             else
               andThen (instanceofError o) (λ isError : bool,
                 if isError then andThen (readMessage o) templateText
                 else
                   match converted o with
                   | Gives text =>
                       if String.eqb (toLowerCase text) "[object object]"
                       then Gives "Détails de l'erreur non disponibles."
                       else Gives text
                   | Raises =>
                       Gives "Détails de l'erreur non disponibles (conversion en chaîne impossible)."
                   end))
      else Gives unknown
  | _ => Gives unknown
  end.


(** The values of [JsValue] among all values. *)
Definition anyOfPrimitive (p : JsPrimitive) : JsAny :=
  match p with
  | JsUndefined => AnyUndefined
  | JsNull => AnyNull
  | JsBoolean b => AnyBoolean b
  | JsNumber text => AnyNumber text
  | JsString s => AnyString s
  end.

Definition answerOf {A : Type} (c : Completion A) : Answer A :=
  match c with
  | Normal a => Gives a
  | Throw _ => Raises
  end.

Definition answersOf (v : JsValue) : ObjectAnswers JsAny :=
  {| typeofIsObject := true;
     toBoolean := true;
     inCode := Gives (hasProperty "code" v);
     inMessage := Gives (hasProperty "message" v);
     readCode := Gives (anyOfPrimitive (getProperty "code" v));
     readMessage := Gives (anyOfPrimitive (getProperty "message" v));
     readCodeAgain := Gives (anyOfPrimitive (getProperty "code" v));
     instanceofError := Gives (match v with ErrorObj _ _ => true | _ => false end);
     converted := answerOf (jsString v) |}.

Definition anyOf (v : JsValue) : JsAny :=
  match v with
  | Prim p => anyOfPrimitive p
  | _ => AnyObject (answersOf v)
  end.

(** ** Strings as JavaScript measures them *)

(** The UTF-16 code units that the character starting with byte [b] takes:
    none for a continuation byte, two for the lead byte of a four-byte
    sequence (a surrogate pair), one otherwise. *)
Definition utf16Units (b : Ascii.ascii) : nat :=
  let n := Ascii.nat_of_ascii b in
  if Nat.ltb n 128 then 1%nat
  else if Nat.ltb n 192 then 0%nat
  else if Nat.ltb n 240 then 1%nat
  else 2%nat.

(** [s.length]. *)
Fixpoint utf16Length (s : string) : nat :=
  match s with
  | EmptyString => 0%nat
  | String b rest => (utf16Units b + utf16Length rest)%nat
  end.

(** The high surrogate of the character encoded by the four bytes
    [b0 b1 b2 b3], as the three bytes that stand for a lone surrogate. *)
Definition highSurrogate (b0 b1 b2 b3 : Ascii.ascii) : string :=
  let bits (b : Ascii.ascii) (m : N) := (Ascii.N_of_ascii b mod m)%N in
  let point := (bits b0 8 * 262144 + bits b1 64 * 4096 + bits b2 64 * 64 + bits b3 64)%N in
  let high := (55296 + (point - 65536) / 1024)%N in
  String (Ascii.ascii_of_N 237)
    (String (Ascii.ascii_of_N (128 + (high / 64) mod 64))
       (String (Ascii.ascii_of_N (128 + high mod 64)) EmptyString)).

(** [s.substring(0, k)]: the first [k] code units.  When the cut falls
    inside a surrogate pair, the high surrogate is kept. *)
Fixpoint utf16Prefix (k : nat) (s : string) : string :=
  match s with
  | EmptyString => EmptyString
  | String b rest =>
      match utf16Units b with
      | O => String b (utf16Prefix k rest)
      | S O =>
          match k with
          | O => EmptyString
          | S k' => String b (utf16Prefix k' rest)
          end
      | _ =>
          match k with
          | O => EmptyString
          | S O =>
              match rest with
              | String b1 (String b2 (String b3 _)) => highSurrogate b b1 b2 b3
              | _ => EmptyString
              end
          | S (S k') => String b (utf16Prefix k' rest)
          end
      end
  end.

(** ** The data model (types.ts) *)

Section Coordinator.

(** The numbers of a position are floating-point values, which the
    coordinator stores and prints and never computes with: their type and
    their printing (the conversion a template literal applies) are left
    open.  [Date_now n] is what the [n]-th call of [Date.now()] returns. *)
Context {Number : Type}.
Variable numberToString : Number → string.
Variable Date_now : nat → Z.

Record GeolocationCoordinates : Type := {
  latitude : Number;
  longitude : Number;
  accuracy : Number;
  altitude : option Number;
  altitudeAccuracy : option Number;
  heading : option Number;
  speed : option Number
}.

Record User : Type := {
  User_id : string;
  User_name : string;
  password : option string;
  isOnline : option bool;
  lastKnownLocation : option GeolocationCoordinates
}.

Record Group : Type := {
  Group_id : string;
  Group_name : string;
  members : list string;
  creatorId : string
}.

Inductive MessageType : Type := text | location | ai_query | ai_response.

Record Message : Type := {
  Message_id : string;
  chatId : string;
  senderId : string;
  senderName : string;
  content : string;
  timestamp : Z;
  Message_type : MessageType
}.

Inductive ChatType : Type := chat_user | chat_group.

Record Chat : Type := {
  Chat_id : string;
  Chat_type : ChatType;
  Chat_name : string;
  targetId : string;
  unreadCount : option Z;
  lastMessage : option string;
  avatarSeed : option string
}.

Inductive ActiveCallType : Type := NONE | VIDEO | VOICE.

(** The argument type of [initiateCall]:
    [ActiveCallType.VOICE | ActiveCallType.VIDEO]. *)
Inductive CallKind : Type := CallVoice | CallVideo.

Definition callTypeOf (k : CallKind) : ActiveCallType :=
  match k with CallVoice => VOICE | CallVideo => VIDEO end.

(** The type argument of [sendMessage]: ['text' | 'location' | 'ai_query']. *)
Inductive SendableType : Type := send_text | send_location | send_ai_query.

Definition messageTypeOf (ty : SendableType) : MessageType :=
  match ty with
  | send_text => text
  | send_location => location
  | send_ai_query => ai_query
  end.

(** ** The collaborators *)

(** What rtcService hands back: the browser's stream and its tracks, named
    by numbers. *)
Record MediaStreamAndTracks : Type := {
  stream : nat;
  tracks : list nat
}.

(** The calls the coordinator makes to rtcService. *)
Inductive MediaCall : Type :=
  | StartLocalMedia (audioOnly : bool)
  | StopLocalMedia.

Inductive NotificationPermission : Type :=
  | permission_default
  | permission_granted
  | permission_denied.

(** A raised system notification ([new Notification(title, options)]). *)
Record Notification : Type := {
  title : string;
  body : string;
  icon : string;
  tag : string
}.

(** Modelled from the spec: the persistence behind userService, which is not
    among the sources.  Section 6 gives its contract: [getMessages] returns
    all messages of a chat in stored order, [addMessage] appends and returns
    the full updated list, [updateUser] upserts and returns the full
    directory. *)
Record Storage : Type := {
  stored_users : list User;
  stored_groups : list Group;
  stored_messages : gmap string (list Message)
}.

Definition getUsers (st : Storage) : list User := stored_users st.

Definition getGroups (st : Storage) : list Group := stored_groups st.

Definition getMessages (chat : string) (st : Storage) : list Message :=
  default [] (stored_messages st !! chat).

Definition addMessage (chat : string) (m : Message) (st : Storage)
  : Storage * list Message :=
  let updated := getMessages chat st ++ [m] in
  ({| stored_users := stored_users st;
      stored_groups := stored_groups st;
      stored_messages := <[chat := updated]> (stored_messages st) |},
   updated).

Definition sameUser (u v : User) : bool := String.eqb (User_id u) (User_id v).

Definition upsertUser (u : User) (dir : list User) : list User :=
  if existsb (sameUser u) dir
  then map (fun v => if sameUser u v then u else v) dir
  else dir ++ [u].

Definition updateUser (u : User) (st : Storage) : Storage * list User :=
  let updated := upsertUser u (stored_users st) in
  ({| stored_users := updated;
      stored_groups := stored_groups st;
      stored_messages := stored_messages st |},
   updated).

(** ** The state of [AppProvider] and of the world around it *)

Record State : Type := mkState {
  notificationPermission : NotificationPermission;
  lastNotifiedMessageId : option string;
  currentUser : option User;
  users : list User;
  groups : list Group;
  activeChat : option Chat;
  messages : list Message;
  activeCallType : ActiveCallType;
  localMediaStreamAndTracks : option MediaStreamAndTracks;
  isCallViewVisible : bool;
  isLoadingAI : bool;
  storage : Storage;
  clockReads : nat;
  mediaCalls : list MediaCall;
  notifications : list Notification
}.

(** The setters: each replaces one cell. *)
Definition set_lastNotifiedMessageId (v : option string) (s : State) : State :=
  mkState (notificationPermission s) v (currentUser s) (users s) (groups s) (activeChat s) (messages s) (activeCallType s) (localMediaStreamAndTracks s) (isCallViewVisible s) (isLoadingAI s) (storage s) (clockReads s) (mediaCalls s) (notifications s).

Definition set_currentUser (v : option User) (s : State) : State :=
  mkState (notificationPermission s) (lastNotifiedMessageId s) v (users s) (groups s) (activeChat s) (messages s) (activeCallType s) (localMediaStreamAndTracks s) (isCallViewVisible s) (isLoadingAI s) (storage s) (clockReads s) (mediaCalls s) (notifications s).

Definition set_users (v : list User) (s : State) : State :=
  mkState (notificationPermission s) (lastNotifiedMessageId s) (currentUser s) v (groups s) (activeChat s) (messages s) (activeCallType s) (localMediaStreamAndTracks s) (isCallViewVisible s) (isLoadingAI s) (storage s) (clockReads s) (mediaCalls s) (notifications s).

Definition set_activeChat (v : option Chat) (s : State) : State :=
  mkState (notificationPermission s) (lastNotifiedMessageId s) (currentUser s) (users s) (groups s) v (messages s) (activeCallType s) (localMediaStreamAndTracks s) (isCallViewVisible s) (isLoadingAI s) (storage s) (clockReads s) (mediaCalls s) (notifications s).

Definition set_messages (v : list Message) (s : State) : State :=
  mkState (notificationPermission s) (lastNotifiedMessageId s) (currentUser s) (users s) (groups s) (activeChat s) v (activeCallType s) (localMediaStreamAndTracks s) (isCallViewVisible s) (isLoadingAI s) (storage s) (clockReads s) (mediaCalls s) (notifications s).

Definition set_activeCallType (v : ActiveCallType) (s : State) : State :=
  mkState (notificationPermission s) (lastNotifiedMessageId s) (currentUser s) (users s) (groups s) (activeChat s) (messages s) v (localMediaStreamAndTracks s) (isCallViewVisible s) (isLoadingAI s) (storage s) (clockReads s) (mediaCalls s) (notifications s).

Definition set_localMediaStreamAndTracks (v : option MediaStreamAndTracks) (s : State) : State :=
  mkState (notificationPermission s) (lastNotifiedMessageId s) (currentUser s) (users s) (groups s) (activeChat s) (messages s) (activeCallType s) v (isCallViewVisible s) (isLoadingAI s) (storage s) (clockReads s) (mediaCalls s) (notifications s).

Definition set_isCallViewVisible (v : bool) (s : State) : State :=
  mkState (notificationPermission s) (lastNotifiedMessageId s) (currentUser s) (users s) (groups s) (activeChat s) (messages s) (activeCallType s) (localMediaStreamAndTracks s) v (isLoadingAI s) (storage s) (clockReads s) (mediaCalls s) (notifications s).

Definition set_isLoadingAI (v : bool) (s : State) : State :=
  mkState (notificationPermission s) (lastNotifiedMessageId s) (currentUser s) (users s) (groups s) (activeChat s) (messages s) (activeCallType s) (localMediaStreamAndTracks s) (isCallViewVisible s) v (storage s) (clockReads s) (mediaCalls s) (notifications s).

Definition set_storage (v : Storage) (s : State) : State :=
  mkState (notificationPermission s) (lastNotifiedMessageId s) (currentUser s) (users s) (groups s) (activeChat s) (messages s) (activeCallType s) (localMediaStreamAndTracks s) (isCallViewVisible s) (isLoadingAI s) v (clockReads s) (mediaCalls s) (notifications s).

Definition set_clockReads (v : nat) (s : State) : State :=
  mkState (notificationPermission s) (lastNotifiedMessageId s) (currentUser s) (users s) (groups s) (activeChat s) (messages s) (activeCallType s) (localMediaStreamAndTracks s) (isCallViewVisible s) (isLoadingAI s) (storage s) v (mediaCalls s) (notifications s).

Definition set_mediaCalls (v : list MediaCall) (s : State) : State :=
  mkState (notificationPermission s) (lastNotifiedMessageId s) (currentUser s) (users s) (groups s) (activeChat s) (messages s) (activeCallType s) (localMediaStreamAndTracks s) (isCallViewVisible s) (isLoadingAI s) (storage s) (clockReads s) v (notifications s).

Definition set_notifications (v : list Notification) (s : State) : State :=
  mkState (notificationPermission s) (lastNotifiedMessageId s) (currentUser s) (users s) (groups s) (activeChat s) (messages s) (activeCallType s) (localMediaStreamAndTracks s) (isCallViewVisible s) (isLoadingAI s) (storage s) (clockReads s) (mediaCalls s) v.

(** How an operation ends: the state it leaves, and the value its promise
    is rejected with (the exception it lets escape) when there is one. *)
Record Outcome : Type := {
  state_of : State;
  thrown : option JsValue
}.

Definition completed (s : State) : Outcome :=
  {| state_of := s; thrown := None |}.

Definition failed (error : JsValue) (s : State) : Outcome :=
  {| state_of := s; thrown := Some error |}.

(** ** The message pipeline: [sendMessage] (lines 247-271) *)

(** The record built at lines 250-258.  [Date.now()] is read twice, first
    for the id, then for the timestamp. *)
Definition newMessage (u : User) (c : Chat) (msg : string) (ty : SendableType)
  (s : State) : Message :=
  {| Message_id := pretty (Date_now (clockReads s));
     chatId := Chat_id c;
     senderId := User_id u;
     senderName := User_name u;
     content := msg;
     timestamp := Date_now (S (clockReads s));
     Message_type := messageTypeOf ty |}.

(** [userService.addMessage(chat, m)] followed by [setMessages] on what it
    returns. *)
Definition appendMessage (chat : string) (m : Message) (s : State) : State :=
  let '(st, updated) := addMessage chat m (storage s) in
  set_messages updated (set_storage st s).

(** The synchronous segment of [sendMessage]: everything up to the
    [await askAI], or the whole of it for the other types. *)
Definition sendMessage_sync (msg : string) (ty : SendableType) (s : State) : State :=
  match currentUser s, activeChat s with
  | Some u, Some c =>
      let m := newMessage u c msg ty s in
      let s1 := appendMessage (Chat_id c) m (set_clockReads (S (S (clockReads s))) s) in
      match ty with
      | send_ai_query => set_isLoadingAI true s1
      | _ => s1
      end
  | _, _ => s
  end.

(** The segment after [await askAI(content, currentUser)], run with the
    active chat [c] the invocation closed over and with what the responder
    settled with.  No handler surrounds the [await]: a rejection ends the
    invocation on the spot. *)
Definition sendMessage_resume (c : Chat) (ai : Settled (option Message)) (s : State)
  : Outcome :=
  match ai with
  | Rejected error => failed error s
  | Fulfilled aiResponse =>
      let s1 := match aiResponse with
                | Some response => appendMessage (Chat_id c) response s
                | None => s
                end in
      completed (set_isLoadingAI false s1)
  end.

(** A whole invocation of [sendMessage] with nothing running in between;
    [ai] is consulted for an [ai_query] only. *)
Definition sendMessage (msg : string) (ty : SendableType)
  (ai : Settled (option Message)) (s : State) : Outcome :=
  match currentUser s, activeChat s, ty with
  | Some _, Some c, send_ai_query =>
      sendMessage_resume c ai (sendMessage_sync msg ty s)
  | _, _, _ => completed (sendMessage_sync msg ty s)
  end.

(** ** The location flow: [shareLocation] (lines 273-326) *)

Definition withLocation (u : User) (coords : GeolocationCoordinates) : User :=
  {| User_id := User_id u;
     User_name := User_name u;
     password := password u;
     isOnline := isOnline u;
     lastKnownLocation := Some coords |}.

Definition locationString (coords : GeolocationCoordinates) : string :=
  "Location: " +:+ numberToString (latitude coords) +:+ ", "
  +:+ numberToString (longitude coords).

(** [loc] is what [getCurrentLocation()] settles with. *)
Definition shareLocation (loc : Settled GeolocationCoordinates) (s : State) : Outcome :=
  match currentUser s, activeChat s with
  | Some u, Some _ =>
      match loc with
      | Fulfilled coords =>
          let s1 := sendMessage_sync (locationString coords) send_location s in
          let updatedUser := withLocation u coords in
          let '(st, directory) := updateUser updatedUser (storage s1) in
          completed (set_users directory
                       (set_storage st (set_currentUser (Some updatedUser) s1)))
      | Rejected error =>
          match userFriendlyMessage error with
          | Normal message =>
              completed (sendMessage_sync
                           ("Impossible de partager la position: " +:+ message)
                           send_text s)
          | Throw e => failed e s
          end
      end
  | _, _ => completed s
  end.

(** ** The call lifecycle: [initiateCall] (lines 328-342), [endCall]
       (lines 344-352) *)

Definition callWord (callType : CallKind) : string :=
  match callType with CallVideo => "vidéo" | CallVoice => "vocal" end.

Definition isVoice (callType : CallKind) : bool :=
  match callType with CallVoice => true | CallVideo => false end.

(** Modelled from the spec: rtcService is not among the sources.  By
    section 6 its acquisition is asynchronous and may fail, and its release
    is asynchronous and best-effort.  A call is recorded in [mediaCalls] and
    returns a promise at once; what the promise settles with is an argument
    of the operation that made the call. *)
Definition callMedia (c : MediaCall) (s : State) : State :=
  set_mediaCalls (mediaCalls s ++ [c]) s.

(** [media] is what [startLocalMedia(null, callType === VOICE)] settles
    with.  The status message goes through [sendMessage], not awaited. *)
Definition initiateCall (callType : CallKind) (media : Settled MediaStreamAndTracks)
  (s : State) : State :=
  match activeChat s with
  | None => s
  | Some _ =>
      let s0 := callMedia (StartLocalMedia (isVoice callType)) s in
      match media with
      | Fulfilled m =>
          sendMessage_sync ("Appel " +:+ callWord callType +:+ " démarré (simulation).")
            send_text
            (set_isCallViewVisible true
               (set_activeCallType (callTypeOf callType)
                  (set_localMediaStreamAndTracks (Some m) s0)))
      | Rejected _ =>
          sendMessage_sync ("Impossible de démarrer l'appel " +:+ callWord callType +:+ ".")
            send_text s0
      end
  end.

(** [release] is what [stopLocalMedia()] settles with.  The call is neither
    awaited nor guarded, and [endCall] is over before the promise settles:
    [release] is not consulted. *)
Definition endCall (release : Settled unit) (s : State) : State :=
  let s1 := set_isCallViewVisible false
              (set_activeCallType NONE
                 (set_localMediaStreamAndTracks None
                    (callMedia StopLocalMedia s))) in
  match activeChat s with
  | Some _ => sendMessage_sync "Appel terminé (simulation)." send_text s1
  | None => s1
  end.

(** ** The effects registered by [AppProvider] *)

(** The notification effect (lines 176-215), run with the values of the
    render it belongs to.  [hidden] is [document.hidden]; [throws] tells
    whether [new Notification] throws, which the effect catches and logs. *)
Definition chatPartnerName (c : Chat) (s : State) : option string :=
  match Chat_type c with
  | chat_user =>
      User_name <$> find (fun u => String.eqb (User_id u) (targetId c)) (users s)
  | chat_group =>
      Group_name <$> find (fun g => String.eqb (Group_id g) (targetId c)) (groups s)
  end.

Definition notificationTitle (c : Chat) (s : State) : string :=
  match chatPartnerName c s with
  | Some name => "Nouveau message de " +:+ name
  | None =>
      match Chat_type c with
      | chat_group => "Nouveau message dans " +:+ Chat_name c
      | chat_user => "Nouveau message"
      end
  end.

Definition notificationBody (m : Message) : string :=
  let shown := match Message_type m with
               | location => "Coordonnées GPS partagées"
               | ai_query => "Question posée à l'IA"
               | ai_response => "Réponse de l'IA reçue"
               | text => content m
               end in
  if Nat.ltb 100 (utf16Length shown)
  then utf16Prefix 97 shown +:+ "..."
  else shown.

Definition notificationFor (c : Chat) (m : Message) (s : State) : Notification :=
  {| title := notificationTitle c s;
     body := notificationBody m;
     icon := "/logo_pc.png";
     tag := Message_id m |}.

Definition isNotified (m : Message) (s : State) : bool :=
  match lastNotifiedMessageId s with
  | Some i => String.eqb (Message_id m) i
  | None => false
  end.

Definition notifyEffect (hidden throws : bool) (s : State) : State :=
  match notificationPermission s, currentUser s, activeChat s, last (messages s) with
  | permission_granted, Some u, Some c, Some m =>
      if (negb (isNotified m s) && negb (String.eqb (senderId m) (User_id u)))%bool
      then
        if hidden then
          let s1 := if throws then s
                    else set_notifications (notifications s ++ [notificationFor c m s]) s in
          set_lastNotifiedMessageId (Some (Message_id m)) s1
        else s
      else s
  | _, _, _, _ => s
  end.

(** What the message list is reloaded to (lines 152-158). *)
Definition reloadedMessages (c : option Chat) (st : Storage) : list Message :=
  match c with
  | Some chat => getMessages (Chat_id chat) st
  | None => []
  end.

(** [setActiveChat c] and the effects of the render it causes, in the order
    the source registers them: the reload of the message list (lines
    152-158), the notification effect, which still sees the list and the
    token of that render, and the reset of the token (lines 218-220).  The
    queued updates are applied together, the last one to a cell winning. *)
Definition activeChatChanged (c : option Chat) (hidden throws : bool) (s : State)
  : State :=
  let render := set_activeChat c s in
  let notified := notifyEffect hidden throws render in
  set_lastNotifiedMessageId None
    (set_messages (reloadedMessages c (storage render)) notified).

(** One firing of the notification effect after the message list of the
    active chat has grown by [appended] (nothing, when another dependency of
    the effect changed). *)
Record Trigger : Type := {
  appended : list Message;
  document_hidden : bool;
  constructor_throws : bool
}.

Definition fire (t : Trigger) (s : State) : State :=
  notifyEffect (document_hidden t) (constructor_throws t)
    (set_messages (messages s ++ appended t) s).


(** ** The coordinator as a transition system *)

(** The initial values of the state cells (lines 137-148). *)
Definition initialState (permission : NotificationPermission)
  (storedUser : option User) (st : Storage) : State :=
  mkState permission None storedUser (getUsers st) (getGroups st) None []
    NONE None false false st 0%nat [] [].

Inductive Event : Type :=
  | SendMessage (msg : string) (ty : SendableType) (ai : Settled (option Message))
  | ShareLocation (loc : Settled GeolocationCoordinates)
  | InitiateCall (callType : CallKind) (media : Settled MediaStreamAndTracks)
  | EndCall (release : Settled unit)
  | SetActiveChat (c : option Chat) (hidden throws : bool)
  | MessagesChanged (t : Trigger).

Definition step (s : State) (e : Event) : State :=
  match e with
  | SendMessage msg ty ai => state_of (sendMessage msg ty ai s)
  | ShareLocation loc => state_of (shareLocation loc s)
  | InitiateCall callType media => initiateCall callType media s
  | EndCall release => endCall release s
  | SetActiveChat c hidden throws => activeChatChanged c hidden throws s
  | MessagesChanged t => fire t s
  end.

Definition run (events : list Event) (s : State) : State :=
  fold_left step events s.



(** The call cells as [useState] initialises them. *)
Definition callIdle (s : State) : Prop :=
  activeCallType s = NONE ∧ localMediaStreamAndTracks s = None
  ∧ isCallViewVisible s = false.

(** What holds of the call cells between operations. *)
Definition callInvariant (s : State) : Prop :=
  (activeCallType s ≠ NONE → localMediaStreamAndTracks s ≠ None)
  ∧ (activeCallType s = NONE → isCallViewVisible s = false).

End Coordinator.

Arguments GeolocationCoordinates : clear implicits.
Arguments User : clear implicits.
Arguments Storage : clear implicits.
Arguments State : clear implicits.
Arguments Outcome : clear implicits.
Arguments Event : clear implicits.

(** ** Sample data: two users, their chat, a clock *)

Module Sample.

Definition alice : User Z :=
  {| User_id := "u-alice"; User_name := "Alice"; password := None;
     isOnline := Some true; lastKnownLocation := None |}.

Definition bob : User Z :=
  {| User_id := "u-bob"; User_name := "Bob"; password := None;
     isOnline := None; lastKnownLocation := None |}.

Definition chatWithBob : Chat :=
  {| Chat_id := "u-alice_u-bob"; Chat_type := chat_user; Chat_name := "Bob";
     targetId := "u-bob"; unreadCount := None; lastMessage := None;
     avatarSeed := None |}.

Definition chatWithCrew : Chat :=
  {| Chat_id := "g-crew"; Chat_type := chat_group; Chat_name := "Crew";
     targetId := "g-crew"; unreadCount := None; lastMessage := None;
     avatarSeed := None |}.

Definition disk : Storage Z :=
  {| stored_users := [alice; bob]; stored_groups := []; stored_messages := ∅ |}.

(** A clock that advances by one millisecond at every reading, and one
    that is read many times within the same millisecond. *)
Definition tickingClock (n : nat) : Z := 1700000000000 + Z.of_nat n.

Definition frozenClock (n : nat) : Z := 1700000000000.

(** Alice is logged in and has opened her chat with Bob. *)
Definition loggedIn : State Z :=
  set_activeChat (Some chatWithBob)
    (initialState permission_granted (Some alice) disk).

(** A chat is open while nobody is logged in. *)
Definition loggedOut : State Z :=
  set_activeChat (Some chatWithBob)
    (initialState permission_granted None disk).

Definition paris : GeolocationCoordinates Z :=
  {| latitude := 48; longitude := 2; accuracy := 10; altitude := None;
     altitudeAccuracy := None; heading := None; speed := None |}.

Definition answer : Message :=
  {| Message_id := "ai-1"; chatId := "u-alice_u-bob"; senderId := "AI";
     senderName := "AI"; content := "42"; timestamp := 1700000000500;
     Message_type := ai_response |}.

Definition fromBob (i : string) : Message :=
  {| Message_id := i; chatId := "u-alice_u-bob"; senderId := "u-bob";
     senderName := "Bob"; content := "hello"; timestamp := 1700000000000;
     Message_type := text |}.

Definition camera : MediaStreamAndTracks := {| stream := 1; tracks := [1; 2]%nat |}.

Definition microphone : MediaStreamAndTracks := {| stream := 2; tracks := [3]%nat |}.

Definition networkDown : JsValue := ErrorObj "Failed to fetch" [].








(** Alice is in a voice call with Bob. *)
Definition inCall : State Z :=
  initiateCall tickingClock CallVoice (Fulfilled microphone) loggedIn.

End Sample.

(** ** The other effects of [AppProvider] *)

Section Effects.

Context {Number : Type}.
Variable numberToString : Number → string.
Variable Date_now : nat → Z.

Definition set_notificationPermission (v : NotificationPermission)
  (s : State Number) : State Number :=
  mkState v (lastNotifiedMessageId s) (currentUser s) (users s) (groups s)
    (activeChat s) (messages s) (activeCallType s) (localMediaStreamAndTracks s)
    (isCallViewVisible s) (isLoadingAI s) (storage s) (clockReads s)
    (mediaCalls s) (notifications s).

(** The updater of the presence effect (line 163):
    [u.id === currentUser.id ? {...u, isOnline: true} : u]. *)
Definition markOnline (current u : User Number) : User Number :=
  if String.eqb (User_id u) (User_id current)
  then {| User_id := User_id u;
          User_name := User_name u;
          password := password u;
          isOnline := Some true;
          lastKnownLocation := lastKnownLocation u |}
  else u.

(** The presence effect (lines 160-166), which runs when the current user
    changes. *)
Definition presenceEffect (s : State Number) : State Number :=
  match currentUser s with
  | Some current => set_users (map (markOnline current) (users s)) s
  | None => s
  end.

(** The callback of the permission effect (lines 168-174):
    [permission => setNotificationPermission(permission)].  The effect asks
    when [Notification] exists and the permission stands at its default; the
    request writes no cell, and what it resolves with, [answer], is stored
    when it resolves, whatever the permission is by then. *)
Definition permissionAnswered (answer : NotificationPermission)
  (s : State Number) : State Number :=
  set_notificationPermission answer s.

(** What happens in a session after mount: an operation or a chat switch of
    the transition system (each operation runs to completion before the next
    activity), a run of the presence effect, or the answer to a permission
    request.  The mount effect (lines 222-244) and the raw setters that the
    context hands to its consumers are not part of it. *)
Inductive Activity : Type :=
  | Operation (e : Event Number)
  | PresenceEffect
  | PermissionAnswered (answer : NotificationPermission).

Definition act (s : State Number) (a : Activity) : State Number :=
  match a with
  | Operation e => step numberToString Date_now s e
  | PresenceEffect => presenceEffect s
  | PermissionAnswered answer => permissionAnswered answer s
  end.

Definition session (activities : list Activity) (s : State Number) : State Number :=
  fold_left act activities s.

End Effects.

Arguments Activity : clear implicits.

(** The answers to permission requests in a session, in order. *)
Definition answers {Number : Type} (activities : list (Activity Number))
  : list NotificationPermission :=
  omap (λ a, match a with PermissionAnswered answer => Some answer | _ => None end)
    activities.

(** The list on display is the persisted list of the active chat. *)
Definition displayInSync {Number : Type} (s : State Number) : Prop :=
  messages s = reloadedMessages (activeChat s) (storage s).

(** An activity that does not put messages on display by itself: anything
    but a firing of the notification effect after the list has grown. *)
Definition rereads {Number : Type} (a : Activity Number) : bool :=
  match a with
  | Operation (MessagesChanged t) =>
      match appended t with [] => true | _ :: _ => false end
  | _ => true
  end.

(** * Properties *)

(** Reading a cell of a state that was built by setters: only the path to
    the cell that is read is unfolded. *)
Ltac cells :=
  cbn [notificationPermission lastNotifiedMessageId currentUser users groups
       activeChat messages activeCallType localMediaStreamAndTracks
       isCallViewVisible isLoadingAI storage clockReads mediaCalls notifications
       set_lastNotifiedMessageId set_currentUser set_users set_activeChat
       set_messages set_activeCallType set_localMediaStreamAndTracks
       set_isCallViewVisible set_isLoadingAI set_storage set_clockReads
       set_mediaCalls set_notifications appendMessage addMessage updateUser
       callMedia completed failed state_of thrown fst snd
       stored_users stored_groups stored_messages] in *.

Ltac operations :=
  unfold step, sendMessage, sendMessage_resume, shareLocation, initiateCall,
    endCall, activeChatChanged, fire, notifyEffect, sendMessage_sync in *.

(** ** The persistence *)

Section Persistence.

Context {Number : Type}.
Implicit Types (u : User Number).

Lemma getMessages_addMessage chat m (st : Storage Number) :
  getMessages chat (addMessage chat m st).1 = getMessages chat st ++ [m].
Proof.
  unfold getMessages at 1. cbn [addMessage fst stored_messages].
  by rewrite lookup_insert_eq.
Qed.

Lemma getMessages_addMessage_ne chat other m (st : Storage Number) :
  other ≠ chat →
  getMessages other (addMessage chat m st).1 = getMessages other st.
Proof.
  intros Hne. unfold getMessages. cbn [addMessage fst stored_messages].
  by rewrite lookup_insert_ne.
Qed.

Lemma getMessages_appendMessage chat m (s : State Number) :
  getMessages chat (storage (appendMessage chat m s))
  = getMessages chat (storage s) ++ [m].
Proof. apply getMessages_addMessage. Qed.

Lemma getMessages_appendMessage_ne chat other m (s : State Number) :
  other ≠ chat →
  getMessages other (storage (appendMessage chat m s)) = getMessages other (storage s).
Proof. apply getMessages_addMessage_ne. Qed.

Lemma messages_appendMessage chat m (s : State Number) :
  messages (appendMessage chat m s) = getMessages chat (storage s) ++ [m].
Proof. reflexivity. Qed.

Lemma sameUser_refl u : sameUser u u = true.
Proof. unfold sameUser. apply String.eqb_refl. Qed.

(** After an upsert the directory answers a lookup by id with the record
    that was written. *)
Lemma find_upsertUser u (dir : list (User Number)) :
  find (sameUser u) (upsertUser u dir) = Some u.
Proof.
  unfold upsertUser. destruct (existsb (sameUser u) dir) eqn:Hex.
  - induction dir as [|v dir IH]; simpl in *; [discriminate|].
    destruct (sameUser u v) eqn:Huv; simpl.
    + by rewrite sameUser_refl.
    + rewrite Huv. apply IH. exact Hex.
  - induction dir as [|v dir IH]; simpl in *.
    + by rewrite sameUser_refl.
    + destruct (sameUser u v) eqn:Huv; simpl in *; [discriminate|].
      apply IH. exact Hex.
Qed.

End Persistence.

(** ** The message pipeline *)

Section Pipeline.

Context {Number : Type}.
Variable numberToString : Number → string.
Variable Date_now : nat → Z.
Implicit Types (s : State Number) (u : User Number) (c : Chat) (m : Message).

Lemma sendMessage_sync_present s u c msg ty :
  currentUser s = Some u → activeChat s = Some c →
  sendMessage_sync Date_now msg ty s =
    let s1 := appendMessage (Chat_id c) (newMessage Date_now u c msg ty s)
                (set_clockReads (S (S (clockReads s))) s) in
    match ty with send_ai_query => set_isLoadingAI true s1 | _ => s1 end.
Proof. intros Hu Hc. unfold sendMessage_sync. by rewrite Hu, Hc. Qed.

Lemma sendMessage_sync_absent s msg ty :
  currentUser s = None ∨ activeChat s = None →
  sendMessage_sync Date_now msg ty s = s.
Proof.
  intros [H|H]; unfold sendMessage_sync; rewrite H; [done|].
  by destruct (currentUser s).
Qed.

(** The cells [sendMessage] never writes. *)
Lemma sendMessage_sync_frame s msg ty :
  let s' := sendMessage_sync Date_now msg ty s in
  notificationPermission s' = notificationPermission s
  ∧ lastNotifiedMessageId s' = lastNotifiedMessageId s
  ∧ currentUser s' = currentUser s
  ∧ users s' = users s
  ∧ groups s' = groups s
  ∧ activeChat s' = activeChat s
  ∧ activeCallType s' = activeCallType s
  ∧ localMediaStreamAndTracks s' = localMediaStreamAndTracks s
  ∧ isCallViewVisible s' = isCallViewVisible s
  ∧ mediaCalls s' = mediaCalls s
  ∧ notifications s' = notifications s
  ∧ stored_users (storage s') = stored_users (storage s).
Proof.
  unfold sendMessage_sync.
  destruct (currentUser s) eqn:Hu, (activeChat s) eqn:Hc, ty; cells; by rewrite ?Hu, ?Hc.
Qed.

(** What one send does to the persisted list of the active chat and to the
    list on display. *)
Lemma sendMessage_sync_appends s u c msg ty :
  currentUser s = Some u → activeChat s = Some c →
  let s' := sendMessage_sync Date_now msg ty s in
  let m := newMessage Date_now u c msg ty s in
  getMessages (Chat_id c) (storage s') = getMessages (Chat_id c) (storage s) ++ [m]
  ∧ messages s' = getMessages (Chat_id c) (storage s) ++ [m]
  ∧ (∀ other, other ≠ Chat_id c →
       getMessages other (storage s') = getMessages other (storage s))
  ∧ clockReads s' = S (S (clockReads s)).
Proof.
  intros Hu Hc. rewrite (sendMessage_sync_present s u c msg ty Hu Hc).
  split_and!; try (intros other Hne); destruct ty; cells; try done;
    unfold getMessages; simpl;
    by rewrite ?lookup_insert_eq, ?lookup_insert_ne.
Qed.

End Pipeline.

(** ** Sending messages *)

Section Sending.

Context {Number : Type}.
Variable numberToString : Number → string.
Variable Date_now : nat → Z.
Implicit Types (s : State Number) (u : User Number) (c : Chat) (m : Message).

(** C4.  With a current user and an active chat, [sendMessage] with type
    text appends exactly one message to the list of the active chat (the
    persisted one, which is also the one put on display), sent by the current
    user, filed under the active chat, of type text, and leaves the lists of
    the other chats alone.  Without a current user or without an active chat
    it appends nothing and changes no state, whatever the type. *)
Theorem sendMessage_text_appends_one s msg ai :
  (∀ u c, currentUser s = Some u → activeChat s = Some c →
     let o := sendMessage Date_now msg send_text ai s in
     ∃ m,
       getMessages (Chat_id c) (storage (state_of o))
         = getMessages (Chat_id c) (storage s) ++ [m]
       ∧ messages (state_of o) = getMessages (Chat_id c) (storage s) ++ [m]
       ∧ senderId m = User_id u
       ∧ chatId m = Chat_id c
       ∧ Message_type m = text
       ∧ content m = msg
       ∧ (∀ other, other ≠ Chat_id c →
            getMessages other (storage (state_of o)) = getMessages other (storage s))
       ∧ thrown o = None)
  ∧ (currentUser s = None ∨ activeChat s = None →
     ∀ ty, sendMessage Date_now msg ty ai s = completed s).
Proof.
  split.
  - intros u c Hu Hc o.
    destruct (sendMessage_sync_appends Date_now s u c msg send_text Hu Hc)
      as (Hstore & Hshown & Hother & _).
    exists (newMessage Date_now u c msg send_text s).
    subst o. unfold sendMessage. rewrite Hu, Hc. simpl.
    by split_and!.
  - intros Habsent ty. unfold sendMessage.
    rewrite (sendMessage_sync_absent Date_now s msg ty Habsent).
    destruct Habsent as [H|H]; rewrite H; [done|].
    by destruct (currentUser s).
Qed.

(** C1, evaluated on the code.  When the AI responder fails, the rejection
    leaves [sendMessage] at its [await]: the query has been appended exactly
    once, the promise of [sendMessage] is rejected with the responder's
    error, and the AI-loading flag is still true. *)
Theorem sendMessage_ai_rejection_keeps_loading s u c msg error :
  currentUser s = Some u → activeChat s = Some c →
  let o := sendMessage Date_now msg send_ai_query (Rejected error) s in
  let query := newMessage Date_now u c msg send_ai_query s in
  thrown o = Some error
  ∧ isLoadingAI (state_of o) = true
  ∧ getMessages (Chat_id c) (storage (state_of o))
      = getMessages (Chat_id c) (storage s) ++ [query]
  ∧ messages (state_of o) = getMessages (Chat_id c) (storage s) ++ [query].
Proof.
  intros Hu Hc o query.
  destruct (sendMessage_sync_appends Date_now s u c msg send_ai_query Hu Hc)
    as (Hstore & Hshown & _ & _).
  subst o. unfold sendMessage. rewrite Hu, Hc. simpl.
  split_and!; try done.
  rewrite (sendMessage_sync_present Date_now s u c msg send_ai_query Hu Hc).
  reflexivity.
Qed.

End Sending.

Lemma sendMessage_text_appends_one_witness :
  (∃ m, messages (state_of (sendMessage Sample.tickingClock "hello" send_text
                              (Fulfilled None) Sample.loggedIn)) = [] ++ [m]
        ∧ senderId m = "u-alice" ∧ Message_type m = text)
  ∧ sendMessage Sample.tickingClock "hello" send_text (Fulfilled None)
      (initialState permission_granted (Some Sample.alice) Sample.disk)
    = completed (initialState permission_granted (Some Sample.alice) Sample.disk).
Proof.
  pose proof (sendMessage_text_appends_one Sample.tickingClock Sample.loggedIn
                "hello" (Fulfilled None)) as [Hsend _].
  pose proof (sendMessage_text_appends_one Sample.tickingClock
                (initialState permission_granted (Some Sample.alice) Sample.disk)
                "hello" (Fulfilled None)) as [_ Hskip].
  split.
  - destruct (Hsend Sample.alice Sample.chatWithBob eq_refl eq_refl)
      as (m & _ & Hshown & Hsender & _ & Hty & _).
    exists m. split_and!; [exact Hshown | exact Hsender | exact Hty].
  - apply Hskip. right. reflexivity.
Defined.

Lemma sendMessage_ai_rejection_keeps_loading_witness :
  let o := sendMessage Sample.tickingClock "why?" send_ai_query
             (Rejected Sample.networkDown) Sample.loggedIn in
  thrown o = Some Sample.networkDown
  ∧ isLoadingAI (state_of o) = true
  ∧ length (messages (state_of o)) = 1%nat.
Proof.
  destruct (sendMessage_ai_rejection_keeps_loading Sample.tickingClock
              Sample.loggedIn Sample.alice Sample.chatWithBob "why?"
              Sample.networkDown eq_refl eq_refl)
    as (Hthrown & Hloading & _ & Hshown).
  split_and!; [exact Hthrown | exact Hloading |].
  rewrite Hshown. reflexivity.
Defined.

(** ** Cells that the operations leave alone *)

Section Frames.

Context {Number : Type}.
Variable numberToString : Number → string.
Variable Date_now : nat → Z.
Implicit Types (s : State Number) (e : Event Number).



(** The clock is only ever read forward. *)
Lemma step_clockReads s e :
  (clockReads s ≤ clockReads (step numberToString Date_now s e))%nat.
Proof.
  destruct e; operations; repeat case_match; simplify_eq; cells; lia.
Qed.

Lemma run_clockReads events s :
  (clockReads s ≤ clockReads (run numberToString Date_now events s))%nat.
Proof.
  revert s. induction events as [|e events IH]; intros s; simpl; [lia|].
  etrans; [apply (step_clockReads s e)|apply IH].
Qed.

End Frames.

(** ** An AI query that is answered *)

Section AiQuery.

Context {Number : Type}.
Variable numberToString : Number → string.
Variable Date_now : nat → Z.
Implicit Types (s : State Number) (u : User Number) (c : Chat) (m : Message).


End AiQuery.



(** ** The call lifecycle *)

Section Calls.

Context {Number : Type}.
Variable numberToString : Number → string.
Variable Date_now : nat → Z.
Implicit Types (s : State Number) (e : Event Number) (c : Chat).

Lemma callIdle_callInvariant s : callIdle s → callInvariant s.
Proof. intros (Hty & Hmedia & Hview). split; [by rewrite Hty | done]. Qed.

Lemma step_callInvariant s e :
  callInvariant s → callInvariant (step numberToString Date_now s e).
Proof.
  intros [Hmedia Hview].
  destruct e as [msg ty ai|loc|callType media|release|c hidden throws|t];
    try destruct callType;
    operations; repeat case_match; simplify_eq; cells; split; done.
Qed.

Lemma run_callInvariant events s :
  callInvariant s → callInvariant (run numberToString Date_now events s).
Proof.
  revert s. induction events as [|e events IH]; intros s Hs; [done|].
  simpl. apply IH. by apply step_callInvariant.
Qed.

(** C7.  In every state reached from idle call cells through [initiateCall]
    and [endCall] (and through the other operations of the coordinator, which
    do not write the call cells), a call state other than NONE comes with a
    stored media handle, and the call view is hidden whenever the call state
    is NONE. *)
Theorem call_state_invariant events s0 :
  callIdle s0 →
  let s := run numberToString Date_now events s0 in
  (activeCallType s ≠ NONE → localMediaStreamAndTracks s ≠ None)
  ∧ (activeCallType s = NONE → isCallViewVisible s = false).
Proof.
  intros Hidle s. apply run_callInvariant. by apply callIdle_callInvariant.
Qed.

(** C10.  The only guard of [initiateCall] is the active chat.  Without one
    it does nothing.  With one, and whatever the call cells hold (a call may
    be running), it asks rtcService for media; when that succeeds the new
    handle replaces the stored one, the call state becomes the requested
    kind and the call view is shown, and the one call made to rtcService is
    that acquisition: the media held before is not released. *)
Theorem initiateCall_overwrites_running_call s callType :
  (activeChat s = None → ∀ media, initiateCall Date_now callType media s = s)
  ∧ (∀ c m, activeChat s = Some c →
       let s' := initiateCall Date_now callType (Fulfilled m) s in
       localMediaStreamAndTracks s' = Some m
       ∧ activeCallType s' = callTypeOf callType
       ∧ isCallViewVisible s' = true
       ∧ mediaCalls s' = mediaCalls s ++ [StartLocalMedia (isVoice callType)]).
Proof.
  split.
  - intros Hc media. unfold initiateCall. by rewrite Hc.
  - intros c m Hc s'. subst s'. unfold initiateCall. rewrite Hc.
    match goal with
    | |- context [sendMessage_sync Date_now ?msg ?ty ?s1] =>
        destruct (sendMessage_sync_frame Date_now s1 msg ty)
          as (_ & _ & _ & _ & _ & _ & Hty & Hmedia & Hview & Hcalls & _)
    end.
    rewrite Hty, Hmedia, Hview, Hcalls. by cells.
Qed.

(** C5, as the code has it.  [endCall] clears the stored stream handle,
    resets the call state to NONE and hides the call view in every state and
    whatever the release of the media settles with; its one call to
    rtcService is that release.  The call-ended status message is appended
    when there are both an active chat and a current user; without either of
    them nothing is appended. *)
Theorem endCall_resets_call s release :
  let s' := endCall Date_now release s in
  localMediaStreamAndTracks s' = None
  ∧ activeCallType s' = NONE
  ∧ isCallViewVisible s' = false
  ∧ mediaCalls s' = mediaCalls s ++ [StopLocalMedia]
  ∧ s' = endCall Date_now (Fulfilled ()) s
  ∧ (∀ u c, currentUser s = Some u → activeChat s = Some c →
       ∃ m, getMessages (Chat_id c) (storage s')
              = getMessages (Chat_id c) (storage s) ++ [m]
            ∧ messages s' = getMessages (Chat_id c) (storage s) ++ [m]
            ∧ content m = "Appel terminé (simulation)."
            ∧ Message_type m = text
            ∧ senderId m = User_id u)
  ∧ (currentUser s = None ∨ activeChat s = None →
       storage s' = storage s ∧ messages s' = messages s).
Proof.
  intros s'. subst s'. unfold endCall.
  set (s1 := set_isCallViewVisible false _).
  assert (Hcells : localMediaStreamAndTracks s1 = None ∧ activeCallType s1 = NONE
                   ∧ isCallViewVisible s1 = false
                   ∧ mediaCalls s1 = mediaCalls s ++ [StopLocalMedia]
                   ∧ storage s1 = storage s ∧ messages s1 = messages s
                   ∧ currentUser s1 = currentUser s ∧ activeChat s1 = activeChat s)
    by (subst s1; by cells).
  destruct Hcells as (H1 & H2 & H3 & H4 & H5 & H6 & H7 & H8).
  destruct (sendMessage_sync_frame Date_now s1 "Appel terminé (simulation)." send_text)
    as (_ & _ & _ & _ & _ & _ & Hty & Hmedia & Hview & Hcalls & _).
  split_and!.
  - destruct (activeChat s); [by rewrite Hmedia|done].
  - destruct (activeChat s); [by rewrite Hty|done].
  - destruct (activeChat s); [by rewrite Hview|done].
  - destruct (activeChat s); [by rewrite Hcalls|done].
  - done.
  - intros u c Hu Hc. rewrite Hc.
    rewrite <- H7 in Hu. pose proof Hc as Hc1. rewrite <- H8 in Hc1.
    destruct (sendMessage_sync_appends Date_now s1 u c
                "Appel terminé (simulation)." send_text Hu Hc1)
      as (Hstore & Hshown & _ & _).
    rewrite H5 in Hstore, Hshown.
    eexists. split_and!; [exact Hstore | exact Hshown | done | done | done].
  - intros Habsent. destruct (activeChat s) eqn:Hc; [|done].
    destruct Habsent as [Hu|?]; [|done].
    rewrite sendMessage_sync_absent; [done|]. left. by rewrite H7.
Qed.

End Calls.

Lemma call_state_invariant_witness :
  let s := run pretty Sample.tickingClock
             [SetActiveChat (Some Sample.chatWithBob) false false;
              InitiateCall CallVideo (Fulfilled Sample.camera);
              EndCall (Rejected Sample.networkDown);
              InitiateCall CallVoice (Fulfilled Sample.microphone)]
             (initialState permission_granted (Some Sample.alice) Sample.disk) in
  activeCallType s = VOICE
  ∧ (activeCallType s ≠ NONE → localMediaStreamAndTracks s ≠ None)
  ∧ (activeCallType s = NONE → isCallViewVisible s = false).
Proof.
  split; [reflexivity|].
  apply (call_state_invariant pretty Sample.tickingClock).
  repeat split; reflexivity.
Defined.

Lemma initiateCall_overwrites_running_call_witness :
  activeCallType Sample.inCall = VOICE
  ∧ localMediaStreamAndTracks Sample.inCall = Some Sample.microphone
  ∧ let s' := initiateCall Sample.tickingClock CallVideo (Fulfilled Sample.camera)
                Sample.inCall in
    localMediaStreamAndTracks s' = Some Sample.camera
    ∧ activeCallType s' = VIDEO
    ∧ mediaCalls s' = [StartLocalMedia true; StartLocalMedia false].
Proof.
  split; [reflexivity|]. split; [reflexivity|].
  destruct (initiateCall_overwrites_running_call Sample.tickingClock
              Sample.inCall CallVideo) as [_ Hrun].
  destruct (Hrun Sample.chatWithBob Sample.camera eq_refl)
    as (Hmedia & Hty & _ & Hcalls).
  split_and!; [exact Hmedia | exact Hty | exact Hcalls].
Defined.

Lemma endCall_resets_call_witness :
  let s' := endCall Sample.tickingClock (Rejected Sample.networkDown) Sample.inCall in
  localMediaStreamAndTracks s' = None
  ∧ activeCallType s' = NONE
  ∧ isCallViewVisible s' = false
  ∧ (∃ m, messages s' = messages Sample.inCall ++ [m]
          ∧ content m = "Appel terminé (simulation).")
  ∧ storage (endCall Sample.tickingClock (Rejected Sample.networkDown) Sample.loggedOut)
    = storage Sample.loggedOut.
Proof.
  destruct (endCall_resets_call Sample.tickingClock Sample.inCall
              (Rejected Sample.networkDown))
    as (Hmedia & Hty & Hview & _ & _ & Hsent & _).
  destruct (endCall_resets_call Sample.tickingClock Sample.loggedOut
              (Rejected Sample.networkDown))
    as (_ & _ & _ & _ & _ & _ & Hskip).
  split_and!; [exact Hmedia | exact Hty | exact Hview | |].
  - destruct (Hsent Sample.alice Sample.chatWithBob eq_refl eq_refl)
      as (m & _ & Hshown & Hcontent & _).
    exists m. split; [exact Hshown | exact Hcontent].
  - apply Hskip. left. reflexivity.
Defined.

(** C5 as it is stated fails where a chat is active and nobody is logged in:
    [endCall] hands the call-ended message to [sendMessage], whose own guard
    drops it, and no message reaches the chat. *)
Lemma endCall_active_chat_no_message :
  let s' := endCall Sample.tickingClock (Fulfilled ()) Sample.loggedOut in
  activeChat Sample.loggedOut = Some Sample.chatWithBob
  ∧ getMessages (Chat_id Sample.chatWithBob) (storage s')
    = getMessages (Chat_id Sample.chatWithBob) (storage Sample.loggedOut)
  ∧ messages s' = messages Sample.loggedOut
  ∧ ¬ (activeChat Sample.loggedOut ≠ None
       ↔ ∃ m, m ∈ getMessages (Chat_id Sample.chatWithBob) (storage s')
              ∧ content m = "Appel terminé (simulation).").
Proof.
  split_and!; try reflexivity.
  intros [Hemit _]. destruct Hemit as (m & Hin & _); [done|].
  vm_compute in Hin. by apply elem_of_nil in Hin.
Qed.

(** ** Timestamps and ids *)

Section Timestamps.

Context {Number : Type}.
Variable numberToString : Number → string.
Variable Date_now : nat → Z.
Implicit Types (s : State Number) (u : User Number) (c : Chat).

(** C9, as the code has it.  Let the clock never run backwards.  Of two
    messages created by successive invocations of [sendMessage] (any
    operations may run in between), the later one's timestamp is at least the
    earlier one's; and the id of a created message is the decimal text of its
    timestamp whenever the two readings of the clock that the invocation
    makes return the same value. *)
Theorem successive_sends_timestamps s events u1 c1 msg1 ty1 ai1 u2 c2 msg2 ty2 :
  (∀ i j : nat, (i ≤ j)%nat → Date_now i ≤ Date_now j) →
  currentUser s = Some u1 → activeChat s = Some c1 →
  let s' := run numberToString Date_now events
              (state_of (sendMessage Date_now msg1 ty1 ai1 s)) in
  currentUser s' = Some u2 → activeChat s' = Some c2 →
  ∃ m1 m2,
    getMessages (Chat_id c1) (storage (sendMessage_sync Date_now msg1 ty1 s))
      = getMessages (Chat_id c1) (storage s) ++ [m1]
    ∧ getMessages (Chat_id c2) (storage (sendMessage_sync Date_now msg2 ty2 s'))
      = getMessages (Chat_id c2) (storage s') ++ [m2]
    ∧ timestamp m1 ≤ timestamp m2
    ∧ (Date_now (clockReads s) = Date_now (S (clockReads s)) →
       Message_id m1 = pretty (timestamp m1))
    ∧ (Date_now (clockReads s') = Date_now (S (clockReads s')) →
       Message_id m2 = pretty (timestamp m2)).
Proof.
  intros Hmono Hu1 Hc1 s' Hu2 Hc2.
  destruct (sendMessage_sync_appends Date_now s u1 c1 msg1 ty1 Hu1 Hc1)
    as (Hstore1 & _ & _ & Hreads1).
  destruct (sendMessage_sync_appends Date_now s' u2 c2 msg2 ty2 Hu2 Hc2)
    as (Hstore2 & _ & _ & _).
  exists (newMessage Date_now u1 c1 msg1 ty1 s), (newMessage Date_now u2 c2 msg2 ty2 s').
  split_and!; [done | done | | |].
  - simpl. apply Hmono.
    assert (clockReads s ≤ clockReads (state_of (sendMessage Date_now msg1 ty1 ai1 s)))%nat
      as Hfirst.
    { unfold sendMessage. rewrite Hu1, Hc1.
      destruct ty1, ai1; simpl; try destruct a; cells; rewrite ?Hreads1; try lia;
        rewrite (sendMessage_sync_present Date_now s u1 c1 msg1 _ Hu1 Hc1);
        cells; lia. }
    pose proof (run_clockReads numberToString Date_now events
                  (state_of (sendMessage Date_now msg1 ty1 ai1 s))) as Hrun.
    fold s' in Hrun. lia.
  - intros Hsame. simpl. by rewrite Hsame.
  - intros Hsame. simpl. by rewrite Hsame.
Qed.

End Timestamps.

Lemma successive_sends_timestamps_witness :
  let s1 := state_of (sendMessage Sample.frozenClock "one" send_text
                        (Fulfilled None) Sample.loggedIn) in
  ∃ m1 m2,
    getMessages "u-alice_u-bob" (storage s1) = [m1]
    ∧ getMessages "u-alice_u-bob" (storage (sendMessage_sync Sample.frozenClock "two" send_text s1))
      = [m1; m2]
    ∧ timestamp m1 ≤ timestamp m2
    ∧ Message_id m1 = pretty (timestamp m1).
Proof.
  destruct (successive_sends_timestamps pretty Sample.frozenClock Sample.loggedIn []
              Sample.alice Sample.chatWithBob "one" send_text (Fulfilled None)
              Sample.alice Sample.chatWithBob "two" send_text
              ltac:(intros; unfold Sample.frozenClock; lia) eq_refl eq_refl
              eq_refl eq_refl)
    as (m1 & m2 & Hfirst & Hsecond & Hle & Hid & _).
  exists m1, m2. split_and!; [exact Hfirst | | exact Hle | exact (Hid eq_refl)].
  etrans; [exact Hsecond|]. cbn [run fold_left].
  change (getMessages (Chat_id Sample.chatWithBob) _)
    with (getMessages (Chat_id Sample.chatWithBob)
            (storage (sendMessage_sync Sample.frozenClock "one" send_text Sample.loggedIn))).
  by rewrite Hfirst.
Defined.

(** C9 as it is stated fails on two counts.  Two sends within the same
    millisecond get the same timestamp (and the same id); and when the clock
    ticks between the two readings of one send, the id is the text of the
    earlier reading, not of the timestamp. *)
Lemma sends_within_one_millisecond :
  (let s1 := state_of (sendMessage Sample.frozenClock "one" send_text
                         (Fulfilled None) Sample.loggedIn) in
   let s2 := state_of (sendMessage Sample.frozenClock "two" send_text
                         (Fulfilled None) s1) in
   ∃ m1 m2, messages s2 = [m1; m2]
            ∧ ¬ (timestamp m1 < timestamp m2)
            ∧ Message_id m1 = Message_id m2)
  ∧ (let s1 := state_of (sendMessage Sample.tickingClock "one" send_text
                           (Fulfilled None) Sample.loggedIn) in
     ∃ m, messages s1 = [m]
          ∧ Message_id m = "1700000000000"
          ∧ timestamp m = 1700000000001
          ∧ Message_id m ≠ pretty (timestamp m)).
Proof.
  split.
  - eexists _, _. split; [reflexivity|]. split; [|reflexivity].
    vm_compute. discriminate.
  - eexists. split; [reflexivity|]. split; [reflexivity|]. split; [reflexivity|].
    vm_compute. discriminate.
Qed.

(** ** The error normalisation *)


(** ** The location flow *)

Section Location.

Context {Number : Type}.
Variable numberToString : Number → string.
Variable Date_now : nat → Z.
Implicit Types (s : State Number) (u : User Number) (c : Chat).


End Location.



(** ** The error normalisation, for every value *)

Lemma isNumber_anyOfPrimitive n p :
  isNumber n (anyOfPrimitive p) = strictEqualsNumber n p.
Proof. by destruct p. Qed.

Lemma isTruthy_anyOfPrimitive p : isTruthy (anyOfPrimitive p) = truthy p.
Proof. by destruct p. Qed.

Lemma templateText_anyOfPrimitive p :
  templateText (anyOfPrimitive p) = Gives (primToString p).
Proof. by destruct p as [| |[]|n|s]. Qed.

(** On the failure values of [JsValue] the normalisation for every value is
    the one [shareLocation] is given with. *)
Lemma userFriendlyText_anyOf (v : JsValue) :
  userFriendlyText (anyOf v) = answerOf (userFriendlyMessage v).
Proof.
  destruct v as [p|props|message props]; [by destruct p as [| |[]|n|s]| |].
  - unfold userFriendlyText, userFriendlyMessage, anyOf.
    cbn [answersOf typeofIsObject inCode inMessage readCode readMessage
         readCodeAgain instanceofError converted andThen].
    destruct (hasProperty "code" (PlainObj props)),
      (hasProperty "message" (PlainObj props)); cbn [andb andThen].
    2-4: by destruct (jsString (PlainObj props)) as [text|]; cbn [answerOf];
           [destruct (String.eqb (toLowerCase text) "[object object]")|].
    rewrite !isNumber_anyOfPrimitive, isTruthy_anyOfPrimitive.
    destruct (strictEqualsNumber "1" (getProperty "code" (PlainObj props))),
      (strictEqualsNumber "2" (getProperty "code" (PlainObj props))),
      (strictEqualsNumber "3" (getProperty "code" (PlainObj props))); try done;
      destruct (truthy (getProperty "message" (PlainObj props)));
      rewrite ?templateText_anyOfPrimitive;
      cbn [andThen templateText answerOf]; by rewrite ?templateText_anyOfPrimitive.
  - unfold userFriendlyText, userFriendlyMessage, anyOf.
    cbn [answersOf typeofIsObject inCode inMessage readCode readMessage
         readCodeAgain instanceofError converted andThen].
    destruct (hasProperty "code" (ErrorObj message props)),
      (hasProperty "message" (ErrorObj message props)); cbn [andb andThen];
      try done.
    rewrite !isNumber_anyOfPrimitive, isTruthy_anyOfPrimitive.
    destruct (strictEqualsNumber "1" (getProperty "code" (ErrorObj message props))),
      (strictEqualsNumber "2" (getProperty "code" (ErrorObj message props))),
      (strictEqualsNumber "3" (getProperty "code" (ErrorObj message props))); try done;
      destruct (truthy (getProperty "message" (ErrorObj message props)));
      rewrite ?templateText_anyOfPrimitive;
      cbn [andThen templateText answerOf]; by rewrite ?templateText_anyOfPrimitive.
Qed.





(** ** The notification dedupe *)

Section Notifications.

Context {Number : Type}.
Implicit Types (s : State Number) (c : Chat) (m : Message) (t : Trigger).





End Notifications.

Section Dedupe.

Context {Number : Type}.
Implicit Types (s : State Number) (u : User Number) (c : Chat) (m : Message) (t : Trigger).





End Dedupe.



(** * Further properties of the coordinator *)

(** ** More on the message pipeline *)

Section PipelineMore.

Context {Number : Type}.
Variable numberToString : Number → string.
Variable Date_now : nat → Z.
Implicit Types (s : State Number) (u : User Number) (c : Chat) (m : Message).

Lemma sendMessage_resume_frame c ai s :
  let s' := state_of (sendMessage_resume c ai s) in
  notificationPermission s' = notificationPermission s
  ∧ lastNotifiedMessageId s' = lastNotifiedMessageId s
  ∧ currentUser s' = currentUser s
  ∧ users s' = users s
  ∧ groups s' = groups s
  ∧ activeChat s' = activeChat s
  ∧ activeCallType s' = activeCallType s
  ∧ localMediaStreamAndTracks s' = localMediaStreamAndTracks s
  ∧ isCallViewVisible s' = isCallViewVisible s
  ∧ mediaCalls s' = mediaCalls s
  ∧ notifications s' = notifications s
  ∧ stored_users (storage s') = stored_users (storage s)
  ∧ clockReads s' = clockReads s.
Proof.
  unfold sendMessage_resume. destruct ai as [[response|]|error]; by cells.
Qed.

(** X1.  An [ai_query] whose responder resolves with [null]: the query is
    the only message appended, the promise of [sendMessage] is fulfilled and
    the loading flag is down again. *)
Theorem sendMessage_ai_query_no_answer s u c msg :
  currentUser s = Some u → activeChat s = Some c →
  let o := sendMessage Date_now msg send_ai_query (Fulfilled None) s in
  ∃ query,
    Message_type query = ai_query ∧ content query = msg
    ∧ getMessages (Chat_id c) (storage (state_of o))
      = getMessages (Chat_id c) (storage s) ++ [query]
    ∧ messages (state_of o) = getMessages (Chat_id c) (storage s) ++ [query]
    ∧ isLoadingAI (state_of o) = false
    ∧ thrown o = None.
Proof.
  intros Hu Hc o.
  destruct (sendMessage_sync_appends Date_now s u c msg send_ai_query Hu Hc)
    as (Hstore & Hshown & _ & _).
  exists (newMessage Date_now u c msg send_ai_query s).
  subst o. unfold sendMessage. rewrite Hu, Hc.
  unfold sendMessage_resume. cells. by split_and!.
Qed.

(** X2.  Whatever the type, the message that [sendMessage] creates carries
    the given content and type, the id and the name of the current user and
    the id of the active chat; it is the first thing the invocation appends
    and the invocation reads the clock exactly twice. *)
Theorem sendMessage_fills_message s u c msg ty :
  currentUser s = Some u → activeChat s = Some c →
  let s' := sendMessage_sync Date_now msg ty s in
  ∃ m,
    getMessages (Chat_id c) (storage s') = getMessages (Chat_id c) (storage s) ++ [m]
    ∧ content m = msg
    ∧ Message_type m = messageTypeOf ty
    ∧ senderId m = User_id u
    ∧ senderName m = User_name u
    ∧ chatId m = Chat_id c
    ∧ Message_id m = pretty (Date_now (clockReads s))
    ∧ timestamp m = Date_now (S (clockReads s))
    ∧ clockReads s' = (clockReads s + 2)%nat.
Proof.
  intros Hu Hc s'.
  destruct (sendMessage_sync_appends Date_now s u c msg ty Hu Hc)
    as (Hstore & _ & _ & Hreads).
  exists (newMessage Date_now u c msg ty s).
  split_and!; try done. fold s' in Hreads. lia.
Qed.

(** X3.  [sendMessage] writes the message list, the persisted messages, the
    clock and the loading flag, and nothing else: for every type and every
    outcome of the AI responder the permission, the dedupe token, the current
    user, both directories, the active chat, the call cells, the calls to
    rtcService, the raised notifications and the persisted users stay as
    they were. *)
Theorem sendMessage_frame s msg ty ai :
  let s' := state_of (sendMessage Date_now msg ty ai s) in
  notificationPermission s' = notificationPermission s
  ∧ lastNotifiedMessageId s' = lastNotifiedMessageId s
  ∧ currentUser s' = currentUser s
  ∧ users s' = users s
  ∧ groups s' = groups s
  ∧ activeChat s' = activeChat s
  ∧ activeCallType s' = activeCallType s
  ∧ localMediaStreamAndTracks s' = localMediaStreamAndTracks s
  ∧ isCallViewVisible s' = isCallViewVisible s
  ∧ mediaCalls s' = mediaCalls s
  ∧ notifications s' = notifications s
  ∧ stored_users (storage s') = stored_users (storage s).
Proof.
  intros s'. subst s'.
  destruct (sendMessage_sync_frame Date_now s msg ty)
    as (H1 & H2 & H3 & H4 & H5 & H6 & H7 & H8 & H9 & H10 & H11 & H12).
  unfold sendMessage.
  destruct (currentUser s) as [u|], (activeChat s) as [c|], ty;
    try (cbn [state_of completed]; by split_and!).
  destruct (sendMessage_resume_frame c ai (sendMessage_sync Date_now msg send_ai_query s))
    as (G1 & G2 & G3 & G4 & G5 & G6 & G7 & G8 & G9 & G10 & G11 & G12 & _).
  rewrite G1, G2, G3, G4, G5, G6, G7, G8, G9, G10, G11, G12. by split_and!.
Qed.

End PipelineMore.

Lemma sendMessage_ai_query_no_answer_witness :
  let o := sendMessage Sample.tickingClock "why?" send_ai_query (Fulfilled None)
             Sample.loggedIn in
  length (messages (state_of o)) = 1%nat ∧ isLoadingAI (state_of o) = false.
Proof.
  destruct (sendMessage_ai_query_no_answer Sample.tickingClock Sample.loggedIn
              Sample.alice Sample.chatWithBob "why?" eq_refl eq_refl)
    as (query & _ & _ & _ & Hshown & Hflag & _).
  split; [|exact Hflag]. rewrite Hshown. reflexivity.
Defined.

Lemma sendMessage_fills_message_witness :
  ∃ m, getMessages "u-alice_u-bob"
         (storage (sendMessage_sync Sample.tickingClock "48, 2" send_location
                     Sample.loggedIn)) = [m]
       ∧ Message_type m = location ∧ senderName m = "Alice"
       ∧ Message_id m = "1700000000000" ∧ timestamp m = 1700000000001.
Proof.
  destruct (sendMessage_fills_message Sample.tickingClock Sample.loggedIn
              Sample.alice Sample.chatWithBob "48, 2" send_location eq_refl eq_refl)
    as (m & Hstore & _ & Hty & _ & Hname & _ & Hid & Hts & _).
  exists m. split_and!; [exact Hstore | exact Hty | exact Hname | exact Hid | exact Hts].
Defined.

(** ** Operations that overlap *)

Section Overlap.

Context {Number : Type}.
Variable numberToString : Number → string.
Variable Date_now : nat → Z.
Implicit Types (s : State Number) (u : User Number) (c : Chat) (m : Message).

(** The notification effect writes the token and the raised notifications
    only. *)
Lemma notifyEffect_keeps hidden throws s :
  let s' := notifyEffect hidden throws s in
  notificationPermission s' = notificationPermission s
  ∧ currentUser s' = currentUser s
  ∧ users s' = users s
  ∧ groups s' = groups s
  ∧ activeChat s' = activeChat s
  ∧ messages s' = messages s
  ∧ activeCallType s' = activeCallType s
  ∧ localMediaStreamAndTracks s' = localMediaStreamAndTracks s
  ∧ isCallViewVisible s' = isCallViewVisible s
  ∧ isLoadingAI s' = isLoadingAI s
  ∧ storage s' = storage s
  ∧ clockReads s' = clockReads s
  ∧ mediaCalls s' = mediaCalls s.
Proof.
  unfold notifyEffect. repeat case_match; by cells.
Qed.

Lemma activeChatChanged_keeps chat hidden throws s :
  let s' := activeChatChanged chat hidden throws s in
  notificationPermission s' = notificationPermission s
  ∧ currentUser s' = currentUser s
  ∧ users s' = users s
  ∧ groups s' = groups s
  ∧ activeCallType s' = activeCallType s
  ∧ localMediaStreamAndTracks s' = localMediaStreamAndTracks s
  ∧ isCallViewVisible s' = isCallViewVisible s
  ∧ isLoadingAI s' = isLoadingAI s
  ∧ storage s' = storage s
  ∧ clockReads s' = clockReads s
  ∧ mediaCalls s' = mediaCalls s.
Proof.
  unfold activeChatChanged.
  destruct (notifyEffect_keeps hidden throws (set_activeChat chat s))
    as (H1 & H2 & H3 & H4 & _ & _ & H7 & H8 & H9 & H10 & H11 & H12 & H13).
  cells. by rewrite H1, H2, H3, H4, H7, H8, H9, H10, H11, H12, H13.
Qed.

(** X4.  The chat is switched while an AI query is pending.  The invocation
    keeps the chat it was started in: the response is persisted in that
    chat, after the query, and the list on display, which the switch had
    reloaded for the new chat, is replaced by the list of the old chat,
    although the new chat stays the active one.  The persisted list of the
    new chat is not written. *)
Theorem ai_response_after_chat_switch s u c other hidden throws msg response :
  currentUser s = Some u → activeChat s = Some c →
  Chat_id other ≠ Chat_id c →
  let waiting := sendMessage_sync Date_now msg send_ai_query s in
  let switched := activeChatChanged (Some other) hidden throws waiting in
  let final := state_of (sendMessage_resume c (Fulfilled (Some response)) switched) in
  let query := newMessage Date_now u c msg send_ai_query s in
  messages switched = getMessages (Chat_id other) (storage s)
  ∧ activeChat final = Some other
  ∧ getMessages (Chat_id c) (storage final)
    = getMessages (Chat_id c) (storage s) ++ [query; response]
  ∧ messages final = getMessages (Chat_id c) (storage s) ++ [query; response]
  ∧ getMessages (Chat_id other) (storage final) = getMessages (Chat_id other) (storage s)
  ∧ isLoadingAI final = false.
Proof.
  intros Hu Hc Hne waiting switched final query.
  destruct (sendMessage_sync_appends Date_now s u c msg send_ai_query Hu Hc)
    as (Hstore & _ & Hother & _).
  fold waiting in Hstore, Hother. fold query in Hstore.
  destruct (activeChatChanged_keeps (Some other) hidden throws waiting)
    as (_ & _ & _ & _ & _ & _ & _ & _ & Hsame & _).
  fold switched in Hsame.
  assert (messages switched = getMessages (Chat_id other) (storage s)) as Hreload.
  { subst switched. unfold activeChatChanged. cells.
    unfold reloadedMessages. by apply Hother. }
  assert (activeChat switched = Some other) as Hactive.
  { subst switched. unfold activeChatChanged.
    destruct (notifyEffect_keeps hidden throws (set_activeChat (Some other) waiting))
      as (_ & _ & _ & _ & Hchat & _).
    cells. by rewrite Hchat. }
  subst final. unfold sendMessage_resume. cbn [state_of completed].
  split_and!.
  - done.
  - by cells.
  - cbn [storage set_isLoadingAI]. rewrite getMessages_appendMessage, Hsame, Hstore.
    by rewrite <- app_assoc.
  - cbn [messages set_isLoadingAI]. rewrite messages_appendMessage, Hsame, Hstore.
    by rewrite <- app_assoc.
  - cbn [storage set_isLoadingAI]. rewrite getMessages_appendMessage_ne by done.
    rewrite Hsame. by apply Hother.
  - by cells.
Qed.

(** X5.  The loading flag is a flag, not a count.  When a second AI query is
    sent while the first is pending, the answer to the first one takes the
    flag down although the second is still waiting; the three messages are
    persisted in the order query, query, response. *)
Theorem overlapping_ai_queries s u c first second response :
  currentUser s = Some u → activeChat s = Some c →
  let waiting1 := sendMessage_sync Date_now first send_ai_query s in
  let waiting2 := sendMessage_sync Date_now second send_ai_query waiting1 in
  let answered1 := state_of (sendMessage_resume c (Fulfilled (Some response)) waiting2) in
  ∃ query1 query2,
    content query1 = first ∧ content query2 = second
    ∧ isLoadingAI waiting2 = true
    ∧ messages answered1
      = getMessages (Chat_id c) (storage s) ++ [query1; query2; response]
    ∧ isLoadingAI answered1 = false.
Proof.
  intros Hu Hc waiting1 waiting2 answered1.
  destruct (sendMessage_sync_appends Date_now s u c first send_ai_query Hu Hc)
    as (Hstore1 & _ & _ & _).
  fold waiting1 in Hstore1.
  destruct (sendMessage_sync_frame Date_now s first send_ai_query)
    as (_ & _ & Hu1 & _ & _ & Hc1 & _).
  fold waiting1 in Hu1, Hc1. rewrite Hu in Hu1. rewrite Hc in Hc1.
  destruct (sendMessage_sync_appends Date_now waiting1 u c second send_ai_query Hu1 Hc1)
    as (Hstore2 & _ & _ & _).
  fold waiting2 in Hstore2.
  exists (newMessage Date_now u c first send_ai_query s),
         (newMessage Date_now u c second send_ai_query waiting1).
  split_and!; try done.
  - subst waiting2.
    by rewrite (sendMessage_sync_present Date_now waiting1 u c second send_ai_query Hu1 Hc1).
  - subst answered1. unfold sendMessage_resume. cbn [state_of completed].
    cbn [messages set_isLoadingAI]. rewrite messages_appendMessage, Hstore2, Hstore1.
    by rewrite <- !app_assoc.
Qed.

End Overlap.

Lemma ai_response_after_chat_switch_witness :
  let waiting := sendMessage_sync Sample.tickingClock "why?" send_ai_query Sample.loggedIn in
  let switched := activeChatChanged (Some Sample.chatWithCrew) false false waiting in
  let final := state_of (sendMessage_resume Sample.chatWithBob
                           (Fulfilled (Some Sample.answer)) switched) in
  messages switched = []
  ∧ activeChat final = Some Sample.chatWithCrew
  ∧ length (messages final) = 2%nat
  ∧ getMessages "g-crew" (storage final) = [].
Proof.
  destruct (ai_response_after_chat_switch Sample.tickingClock Sample.loggedIn
              Sample.alice Sample.chatWithBob Sample.chatWithCrew false false
              "why?" Sample.answer eq_refl eq_refl ltac:(discriminate))
    as (Hreload & Hactive & _ & Hshown & Hother & _).
  split_and!; [exact Hreload | exact Hactive | | exact Hother].
  rewrite Hshown. reflexivity.
Defined.

Lemma overlapping_ai_queries_witness :
  let waiting2 := sendMessage_sync Sample.tickingClock "two" send_ai_query
                    (sendMessage_sync Sample.tickingClock "one" send_ai_query
                       Sample.loggedIn) in
  let answered1 := state_of (sendMessage_resume Sample.chatWithBob
                               (Fulfilled (Some Sample.answer)) waiting2) in
  isLoadingAI waiting2 = true
  ∧ length (messages answered1) = 3%nat
  ∧ isLoadingAI answered1 = false.
Proof.
  destruct (overlapping_ai_queries Sample.tickingClock Sample.loggedIn
              Sample.alice Sample.chatWithBob "one" "two" Sample.answer
              eq_refl eq_refl)
    as (query1 & query2 & _ & _ & Hup & Hshown & Hdown).
  split_and!; [exact Hup | | exact Hdown].
  rewrite Hshown. reflexivity.
Defined.

(** ** More on the call lifecycle *)

Section CallsMore.

Context {Number : Type}.
Variable numberToString : Number → string.
Variable Date_now : nat → Z.
Implicit Types (s : State Number) (u : User Number) (c : Chat) (m : Message).


(** X7.  A call that is started and ended.  With a current user and an
    active chat, [initiateCall] (media acquired) followed by [endCall] leaves
    the call cells idle; rtcService has been asked for the media and then for
    its release, in that order; and the chat has received the started message
    and then the ended message, stamped with the second and the fourth
    reading of the clock. *)
Theorem call_started_then_ended s u c callType media release :
  currentUser s = Some u → activeChat s = Some c →
  let s' := endCall Date_now release (initiateCall Date_now callType (Fulfilled media) s) in
  callIdle s'
  ∧ mediaCalls s' = mediaCalls s ++ [StartLocalMedia (isVoice callType); StopLocalMedia]
  ∧ ∃ started ended,
      getMessages (Chat_id c) (storage s')
        = getMessages (Chat_id c) (storage s) ++ [started; ended]
      ∧ messages s' = getMessages (Chat_id c) (storage s) ++ [started; ended]
      ∧ content started = "Appel " +:+ callWord callType +:+ " démarré (simulation)."
      ∧ content ended = "Appel terminé (simulation)."
      ∧ timestamp started = Date_now (S (clockReads s))
      ∧ timestamp ended = Date_now (S (S (S (clockReads s)))).
Proof.
  intros Hu Hc s'. subst s'.
  unfold initiateCall. rewrite Hc.
  set (msg1 := "Appel " +:+ callWord callType +:+ " démarré (simulation).").
  set (s0 := set_isCallViewVisible true _).
  assert (currentUser s0 = Some u ∧ activeChat s0 = Some c ∧ storage s0 = storage s
          ∧ clockReads s0 = clockReads s
          ∧ mediaCalls s0 = mediaCalls s ++ [StartLocalMedia (isVoice callType)])
    as (Hu0 & Hc0 & Hst0 & Hclock0 & Hcalls0) by (subst s0; by cells).
  destruct (sendMessage_sync_frame Date_now s0 msg1 send_text)
    as (_ & _ & Hu1 & _ & _ & Hc1 & _ & _ & _ & Hcalls1 & _).
  destruct (sendMessage_sync_appends Date_now s0 u c msg1 send_text Hu0 Hc0)
    as (Hstore1 & _ & _ & Hclock1).
  set (s1 := sendMessage_sync Date_now msg1 send_text s0) in *.
  rewrite Hu0 in Hu1. rewrite Hc0 in Hc1.
  unfold endCall. rewrite Hc1.
  set (s2 := set_isCallViewVisible false _).
  assert (currentUser s2 = Some u ∧ activeChat s2 = Some c ∧ storage s2 = storage s1
          ∧ clockReads s2 = clockReads s1
          ∧ mediaCalls s2 = mediaCalls s1 ++ [StopLocalMedia]
          ∧ activeCallType s2 = NONE ∧ localMediaStreamAndTracks s2 = None
          ∧ isCallViewVisible s2 = false)
    as (Hu2 & Hc2 & Hst2 & Hclock2 & Hcalls2 & Hty2 & Hmedia2 & Hview2)
    by (subst s2; by cells).
  set (msg2 := "Appel terminé (simulation).").
  destruct (sendMessage_sync_frame Date_now s2 msg2 send_text)
    as (_ & _ & _ & _ & _ & _ & Hty & Hmedia & Hview & Hcalls & _).
  destruct (sendMessage_sync_appends Date_now s2 u c msg2 send_text Hu2 Hc2)
    as (Hstore2 & Hshown2 & _ & _).
  split_and!.
  - unfold callIdle. by rewrite Hty, Hmedia, Hview.
  - rewrite Hcalls, Hcalls2, Hcalls1, Hcalls0. by rewrite <- app_assoc.
  - exists (newMessage Date_now u c msg1 send_text s0),
           (newMessage Date_now u c msg2 send_text s2).
    rewrite Hst2, Hstore1, Hst0 in Hstore2, Hshown2.
    rewrite <- app_assoc in Hstore2, Hshown2.
    split_and!; [exact Hstore2 | exact Hshown2 | done | done | |].
    + cbn [timestamp newMessage]. by rewrite Hclock0.
    + cbn [timestamp newMessage]. by rewrite Hclock2, Hclock1, Hclock0.
Qed.

End CallsMore.


Lemma call_started_then_ended_witness :
  let s' := endCall Sample.tickingClock (Fulfilled ())
              (initiateCall Sample.tickingClock CallVideo (Fulfilled Sample.camera)
                 Sample.loggedIn) in
  callIdle s'
  ∧ mediaCalls s' = [StartLocalMedia false; StopLocalMedia]
  ∧ content <$> messages s'
    = ["Appel vidéo démarré (simulation)."; "Appel terminé (simulation)."].
Proof.
  destruct (call_started_then_ended Sample.tickingClock Sample.loggedIn
              Sample.alice Sample.chatWithBob CallVideo Sample.camera (Fulfilled ())
              eq_refl eq_refl)
    as (Hidle & Hcalls & started & ended & _ & Hshown & Hc1 & Hc2 & _).
  split_and!; [exact Hidle | exact Hcalls |].
  rewrite Hshown. transitivity [content started; content ended]; [reflexivity|].
  rewrite Hc1, Hc2. reflexivity.
Defined.

(** ** The presence and the permission effect, and whole sessions *)

Section Sessions.

Context {Number : Type}.
Variable numberToString : Number → string.
Variable Date_now : nat → Z.
Implicit Types (s : State Number) (u v : User Number) (c : Chat) (m : Message)
  (e : Event Number) (a : Activity Number).

Lemma markOnline_id current v : User_id (markOnline current v) = User_id v.
Proof. unfold markOnline. by case_match. Qed.

Lemma markOnline_idem current v :
  markOnline current (markOnline current v) = markOnline current v.
Proof.
  unfold markOnline. destruct (String.eqb (User_id v) (User_id current)) eqn:Hid.
  - cbn [User_id]. by rewrite Hid.
  - by rewrite Hid.
Qed.

(** X8.  The presence effect marks the current user online in the directory
    on display and does nothing else to it: the directory keeps its length
    and its order, every entry keeps its id, name, password and last known
    location, the entries with the id of the current user are online, the
    other entries are untouched; a current user who is not in the directory
    is not added; and running the effect again changes nothing. *)
Theorem presenceEffect_marks_current_user s :
  Forall2 (λ old new,
             User_id new = User_id old ∧ User_name new = User_name old
             ∧ password new = password old
             ∧ lastKnownLocation new = lastKnownLocation old
             ∧ ∀ current, currentUser s = Some current →
                 (User_id old = User_id current → isOnline new = Some true)
                 ∧ (User_id old ≠ User_id current → new = old))
    (users s) (users (presenceEffect s))
  ∧ (currentUser s = None → presenceEffect s = s)
  ∧ (∀ current, currentUser s = Some current →
       Forall (λ v, User_id v ≠ User_id current) (users s) →
       users (presenceEffect s) = users s)
  ∧ presenceEffect (presenceEffect s) = presenceEffect s.
Proof.
  unfold presenceEffect. destruct (currentUser s) as [current|] eqn:Hcurrent.
  - cells. rewrite Hcurrent. cells. split_and!.
    + induction (users s) as [|old rest IH]; [constructor|].
      cbn [map]. constructor; [|exact IH].
      unfold markOnline.
      destruct (String.eqb (User_id old) (User_id current)) eqn:Hid.
      * cbn [User_id User_name password lastKnownLocation isOnline].
        split_and!; try done. intros ? [= <-]. split; [done|].
        intros Hne. by apply String.eqb_eq in Hid.
      * split_and!; try done. intros ? [= <-]. split; [|done].
        intros Heq. apply String.eqb_neq in Hid. done.
    + done.
    + intros ? [= <-] Hall. induction Hall as [|v rest Hv _ IH]; [done|].
      cbn [map]. rewrite IH. f_equal. unfold markOnline.
      apply String.eqb_neq in Hv. by rewrite Hv.
    + unfold set_users. cells. rewrite map_map.
      rewrite (map_ext _ (markOnline current)); [done|].
      intros v. apply markOnline_idem.
  - split_and!; try done.
    + induction (users s); constructor; [|done]. split_and!; try done.
    + by rewrite Hcurrent.
Qed.

(** X9.  After a position has been shared, the presence effect runs (the
    current user has changed): the directory entry of the current user then
    carries the fetched coordinates and is online. *)
Theorem shareLocation_then_presence s u c coords :
  currentUser s = Some u → activeChat s = Some c →
  let s' := presenceEffect
              (state_of (shareLocation numberToString Date_now (Fulfilled coords) s)) in
  ∃ entry,
    find (sameUser u) (users s') = Some entry
    ∧ User_id entry = User_id u
    ∧ lastKnownLocation entry = Some coords
    ∧ isOnline entry = Some true.
Proof.
  intros Hu Hc s'. subst s'. unfold shareLocation. rewrite Hu, Hc.
  unfold presenceEffect. cells.
  set (updated := withLocation u coords).
  set (dir := upsertUser updated _).
  exists (markOnline updated updated).
  assert (find (sameUser u) (map (markOnline updated) dir)
          = Some (markOnline updated updated)) as ->.
  { pose proof (find_upsertUser updated
                  (stored_users (storage (sendMessage_sync Date_now
                     (locationString numberToString coords) send_location s)))) as Hfind.
    fold dir in Hfind. clearbody dir.
    induction dir as [|v rest IH]; [discriminate|].
    cbn [map find] in *. unfold sameUser at 1. rewrite markOnline_id.
    fold (sameUser u v). change (sameUser updated v) with (sameUser u v) in Hfind.
    destruct (sameUser u v); [by simplify_eq|]. by apply IH. }
  unfold markOnline. rewrite String.eqb_refl.
  by split_and!.
Qed.

(** X10.  The permission cell is written by the answers to permission
    requests and by nothing else: after a session it holds the last answer
    that arrived, and what it held before when none arrived; no operation,
    chat switch, notification firing or presence effect writes it. *)
Theorem session_permission_is_last_answer activities s :
  notificationPermission (session numberToString Date_now activities s)
  = default (notificationPermission s) (last (answers activities)).
Proof.
  revert s. induction activities as [|a rest IH]; intros s; [done|].
  change (session numberToString Date_now (a :: rest) s)
    with (session numberToString Date_now rest (act numberToString Date_now s a)).
  rewrite IH. destruct a as [e| |answer]; cbn [act].
  - change (answers (Operation e :: rest)) with (answers rest).
    f_equal. destruct e; operations; repeat case_match; by cells.
  - change (answers (PresenceEffect :: rest)) with (answers rest).
    f_equal. unfold presenceEffect. case_match; by cells.
  - change (answers (PermissionAnswered answer :: rest)) with (answer :: answers rest).
    rewrite last_cons. by destruct (last (answers rest)).
Qed.

(** X11.  After mount the coordinator reads the groups and never writes
    them: no sequence of operations, chat switches, notification firings,
    presence effects and permission answers changes the group directory on
    display or the persisted one. *)
Theorem session_never_writes_groups activities s :
  let s' := session numberToString Date_now activities s in
  groups s' = groups s ∧ getGroups (storage s') = getGroups (storage s).
Proof.
  revert s. induction activities as [|a rest IH]; intros s; [done|].
  intros s'. subst s'.
  change (session numberToString Date_now (a :: rest) s)
    with (session numberToString Date_now rest (act numberToString Date_now s a)).
  assert (groups (act numberToString Date_now s a) = groups s
          ∧ getGroups (storage (act numberToString Date_now s a)) = getGroups (storage s))
    as [Hshown Hstored].
  { unfold getGroups. destruct a as [e| |answer]; cbn [act].
    - destruct e; operations; repeat case_match; cells; try done.
      unfold updateUser in *. by simplify_eq.
    - unfold presenceEffect. case_match; by cells.
    - done. }
  destruct (IH (act numberToString Date_now s a)) as [H1 H2].
  split; [by rewrite H1 | by rewrite H2].
Qed.

End Sessions.

Lemma presenceEffect_marks_current_user_witness :
  isOnline <$> users (presenceEffect
                        (initialState permission_granted (Some Sample.bob) Sample.disk))
  = [Some true; Some true]
  ∧ User_id <$> users (presenceEffect
                         (initialState permission_granted (Some Sample.bob) Sample.disk))
    = ["u-alice"; "u-bob"]
  ∧ presenceEffect (initialState permission_granted None Sample.disk)
    = initialState permission_granted None Sample.disk.
Proof.
  destruct (presenceEffect_marks_current_user
              (initialState permission_granted None Sample.disk))
    as (_ & Hnone & _).
  split; [reflexivity|]. split; [reflexivity|]. apply Hnone. reflexivity.
Defined.

Lemma shareLocation_then_presence_witness :
  ∃ entry,
    find (sameUser Sample.alice)
      (users (presenceEffect
                (state_of (shareLocation pretty Sample.tickingClock
                             (Fulfilled Sample.paris) Sample.loggedIn)))) = Some entry
    ∧ lastKnownLocation entry = Some Sample.paris
    ∧ isOnline entry = Some true.
Proof.
  destruct (shareLocation_then_presence pretty Sample.tickingClock Sample.loggedIn
              Sample.alice Sample.chatWithBob Sample.paris eq_refl eq_refl)
    as (entry & Hfind & _ & Hloc & Honline).
  exists entry. split_and!; [exact Hfind | exact Hloc | exact Honline].
Defined.

(** ** The list on display and the persisted list *)

Section Display.

Context {Number : Type}.
Variable numberToString : Number → string.
Variable Date_now : nat → Z.
Implicit Types (s : State Number) (u v : User Number) (c : Chat) (m : Message)
  (e : Event Number) (a : Activity Number).

Lemma displayInSync_ext s s' :
  messages s' = messages s → activeChat s' = activeChat s →
  stored_messages (storage s') = stored_messages (storage s) →
  displayInSync s → displayInSync s'.
Proof.
  unfold displayInSync, reloadedMessages, getMessages.
  intros -> -> ->. done.
Qed.

Lemma sendMessage_sync_inSync s msg ty :
  displayInSync s → displayInSync (sendMessage_sync Date_now msg ty s).
Proof.
  intros Hs.
  destruct (currentUser s) as [u|] eqn:Hu; [destruct (activeChat s) as [c|] eqn:Hc|].
  - destruct (sendMessage_sync_appends Date_now s u c msg ty Hu Hc)
      as (Hstore & Hshown & _ & _).
    destruct (sendMessage_sync_frame Date_now s msg ty)
      as (_ & _ & _ & _ & _ & Hchat & _).
    unfold displayInSync. rewrite Hchat, Hc, Hshown. cbn [reloadedMessages].
    by rewrite Hstore.
  - rewrite sendMessage_sync_absent; [done|by right].
  - rewrite sendMessage_sync_absent; [done|by left].
Qed.

Lemma step_inSync s e :
  rereads (Operation e) = true →
  displayInSync s → displayInSync (step numberToString Date_now s e).
Proof.
  intros Hquiet Hs.
  destruct e as [msg ty ai|loc|callType media|release|chat hidden throws|t]; cbn [step].
  - pose proof (sendMessage_sync_inSync s msg ty Hs) as Hsync.
    unfold sendMessage.
    destruct (currentUser s) as [u|] eqn:Hu; [|done].
    destruct (activeChat s) as [c|] eqn:Hc; [|done].
    destruct ty; try done.
    destruct (sendMessage_sync_frame Date_now s msg send_ai_query)
      as (_ & _ & _ & _ & _ & Hchat & _).
    set (waiting := sendMessage_sync Date_now msg send_ai_query s) in *.
    unfold sendMessage_resume. destruct ai as [[response|]|error];
      cbn [state_of completed failed]; [| |done].
    + unfold displayInSync. cbn [messages activeChat storage set_isLoadingAI].
      rewrite messages_appendMessage.
      assert (activeChat (appendMessage (Chat_id c) response waiting) = Some c) as ->
        by (cells; by rewrite Hchat, Hc).
      cbn [reloadedMessages]. by rewrite getMessages_appendMessage.
    + by apply (displayInSync_ext waiting).
  - unfold shareLocation.
    destruct (currentUser s) as [u|] eqn:Hu; [|done].
    destruct (activeChat s) as [c|] eqn:Hc; [|done].
    destruct loc as [coords|error].
    + pose proof (sendMessage_sync_inSync s (locationString numberToString coords)
                    send_location Hs) as Hsync.
      cells. by apply (displayInSync_ext (sendMessage_sync Date_now
                         (locationString numberToString coords) send_location s)).
    + destruct (userFriendlyMessage error); cbn [state_of completed failed]; [|done].
      by apply sendMessage_sync_inSync.
  - unfold initiateCall. destruct (activeChat s) eqn:Hc; [|done].
    destruct media; apply sendMessage_sync_inSync;
      by apply (displayInSync_ext s).
  - unfold endCall. destruct (activeChat s) eqn:Hc.
    + apply sendMessage_sync_inSync. by apply (displayInSync_ext s).
    + by apply (displayInSync_ext s).
  - unfold activeChatChanged.
    destruct (notifyEffect_keeps hidden throws (set_activeChat chat s))
      as (_ & _ & _ & _ & Hchat & _ & _ & _ & _ & _ & Hstore & _).
    unfold displayInSync. cells. by rewrite Hchat, Hstore.
  - unfold fire. cbn [rereads] in Hquiet.
    destruct (appended t); [|done]. rewrite app_nil_r.
    destruct (notifyEffect_keeps (document_hidden t) (constructor_throws t)
                (set_messages (messages s) s))
      as (_ & _ & _ & _ & Hchat & Hshown & _ & _ & _ & _ & Hstore & _).
    apply (displayInSync_ext s); [by rewrite Hshown | by rewrite Hchat
                                 | by rewrite Hstore | done].
Qed.

(** X12.  The list on display is a re-read of the persistence.  From the
    initial state, through every sequence of operations that each run to
    completion before the next starts, chat switches, effects and permission
    answers in which nothing but the coordinator puts messages on display,
    the message list equals the persisted list of the active chat (and is
    empty when no chat is active). *)
Theorem session_display_in_sync permission storedUser st activities :
  forallb rereads activities = true →
  let s := session numberToString Date_now activities
             (initialState permission storedUser st) in
  messages s = match activeChat s with
               | Some c => getMessages (Chat_id c) (storage s)
               | None => []
               end.
Proof.
  intros Hquiet s.
  assert (displayInSync s) as Hsync; [|exact Hsync].
  subst s.
  assert (displayInSync (initialState permission storedUser st)) as Hinit by done.
  revert Hinit. generalize (initialState permission storedUser st).
  induction activities as [|a rest IH]; intros s Hs; [done|].
  cbn [forallb] in Hquiet. apply andb_true_iff in Hquiet as [Ha Hrest].
  change (session numberToString Date_now (a :: rest) s)
    with (session numberToString Date_now rest (act numberToString Date_now s a)).
  apply IH; [done|].
  destruct a as [e| |answer]; cbn [act].
  - by apply step_inSync.
  - unfold presenceEffect. destruct (currentUser s); [|done].
    by apply (displayInSync_ext s).
  - by apply (displayInSync_ext s).
Qed.

(** X13.  Reloading is read-only and idempotent: a chat switch writes
    nothing to the persistence, and switching to the same chat twice shows
    the same list as switching once, namely the persisted list of that chat;
    switching to no chat empties the list. *)
Theorem chat_switch_reloads chat hidden throws hidden' throws' s :
  let once := activeChatChanged chat hidden throws s in
  let twice := activeChatChanged chat hidden' throws' once in
  storage once = storage s
  ∧ messages twice = messages once
  ∧ messages once = reloadedMessages chat (storage s)
  ∧ (chat = None → messages once = [])
  ∧ lastNotifiedMessageId twice = lastNotifiedMessageId once.
Proof.
  intros once twice.
  destruct (activeChatChanged_keeps chat hidden throws s)
    as (_ & _ & _ & _ & _ & _ & _ & _ & Hstore & _).
  fold once in Hstore.
  assert (∀ h t s0, messages (activeChatChanged chat h t s0)
                    = reloadedMessages chat (storage s0)
                    ∧ lastNotifiedMessageId (activeChatChanged chat h t s0) = None)
    as Hreload by (intros; unfold activeChatChanged; by cells).
  destruct (Hreload hidden throws s) as [H1 H2].
  destruct (Hreload hidden' throws' once) as [H3 H4].
  fold once in H1, H2. fold twice in H3, H4.
  split_and!; [done | by rewrite H3, H1, Hstore | done
              | intros Hnone; by rewrite Hnone in H1 | by rewrite H2, H4].
Qed.

End Display.


Lemma session_display_in_sync_witness :
  let s := session pretty Sample.tickingClock
             [Operation (SetActiveChat (Some Sample.chatWithBob) false false);
              Operation (SendMessage "why?" send_ai_query (Fulfilled (Some Sample.answer)));
              PresenceEffect;
              Operation (InitiateCall CallVoice (Rejected Sample.networkDown));
              Operation (ShareLocation (Fulfilled Sample.paris))]
             (initialState permission_granted (Some Sample.alice) Sample.disk) in
  length (messages s) = 4%nat
  ∧ activeChat s = Some Sample.chatWithBob
  ∧ messages s = match activeChat s with
                 | Some c => getMessages (Chat_id c) (storage s)
                 | None => []
                 end.
Proof.
  split; [vm_compute; reflexivity|]. split; [vm_compute; reflexivity|].
  exact (session_display_in_sync pretty Sample.tickingClock permission_granted
           (Some Sample.alice) Sample.disk
           [Operation (SetActiveChat (Some Sample.chatWithBob) false false);
            Operation (SendMessage "why?" send_ai_query (Fulfilled (Some Sample.answer)));
            PresenceEffect;
            Operation (InitiateCall CallVoice (Rejected Sample.networkDown));
            Operation (ShareLocation (Fulfilled Sample.paris))]
           eq_refl).
Defined.

Lemma chat_switch_reloads_witness :
  let once := activeChatChanged None false false Sample.inCall in
  messages Sample.inCall ≠ [] ∧ messages once = [] ∧ storage once = storage Sample.inCall.
Proof.
  destruct (chat_switch_reloads None false false false false Sample.inCall)
    as (Hstore & _ & _ & Hnone & _).
  split; [discriminate|]. split; [exact (Hnone eq_refl) | exact Hstore].
Defined.

(** ** More on the notification effect *)

Section NotificationsMore.

Context {Number : Type}.
Implicit Types (s : State Number) (u : User Number) (c : Chat) (m : Message) (t : Trigger).

Lemma notifyEffect_on_token hidden throws s m :
  last (messages s) = Some m → lastNotifiedMessageId s = Some (Message_id m) →
  notifyEffect hidden throws s = s.
Proof.
  intros Hlast Htoken. unfold notifyEffect, isNotified.
  rewrite Hlast, Htoken, String.eqb_refl.
  by destruct (notificationPermission s), (currentUser s), (activeChat s).
Qed.

(** X14.  When the notification effect stays silent, it changes nothing at
    all: without the permission, without a current user, without an active
    chat, with an empty list, while the page is visible, for a last message
    of the current user, and for a last message whose id is the token, the
    state after the effect is the state before it. *)
Theorem notifyEffect_silent hidden throws s :
  notificationPermission s ≠ permission_granted
  ∨ currentUser s = None
  ∨ activeChat s = None
  ∨ messages s = []
  ∨ hidden = false
  ∨ (∃ u m, currentUser s = Some u ∧ last (messages s) = Some m
            ∧ senderId m = User_id u)
  ∨ (∃ m, last (messages s) = Some m ∧ lastNotifiedMessageId s = Some (Message_id m)) →
  notifyEffect hidden throws s = s.
Proof.
  unfold notifyEffect.
  intros [Hp|[Hu|[Hc|[Hempty|[->|[(u & m & Hu & Hlast & Hown)|(m & Hlast & Htoken)]]]]]].
  - by destruct (notificationPermission s).
  - rewrite Hu. by destruct (notificationPermission s).
  - rewrite Hc. by destruct (notificationPermission s), (currentUser s).
  - rewrite Hempty. by destruct (notificationPermission s), (currentUser s), (activeChat s).
  - by repeat case_match.
  - rewrite Hu, Hlast, Hown, String.eqb_refl, andb_false_r.
    by destruct (notificationPermission s), (activeChat s).
  - by apply (notifyEffect_on_token hidden throws s m).
Qed.

(** X15.  When the permission is granted, the page is hidden, and the last
    message of the active chat comes from somebody else and has an id other
    than the token, the effect raises one notification, tagged with the id of
    that message and titled and worded for it, and the token becomes that id;
    when the platform refuses the notification (the constructor throws),
    nothing is raised and the token becomes that id all the same, so that the
    message is not tried again. *)
Theorem notifyEffect_raises throws s u c m :
  notificationPermission s = permission_granted →
  currentUser s = Some u → activeChat s = Some c →
  last (messages s) = Some m →
  lastNotifiedMessageId s ≠ Some (Message_id m) →
  senderId m ≠ User_id u →
  let s' := notifyEffect true throws s in
  lastNotifiedMessageId s' = Some (Message_id m)
  ∧ notifications s' = (if throws then notifications s
                        else notifications s ++ [notificationFor c m s])
  ∧ tag (notificationFor c m s) = Message_id m
  ∧ ∀ hidden' throws', notifyEffect hidden' throws' s' = s'.
Proof.
  intros Hp Hu Hc Hlast Hfresh Hother s'.
  assert (isNotified m s = false) as Hseen.
  { unfold isNotified. destruct (lastNotifiedMessageId s) as [i|] eqn:Htoken; [|done].
    apply String.eqb_neq. intros Heq. apply Hfresh. by rewrite Heq. }
  assert (s' = set_lastNotifiedMessageId (Some (Message_id m))
                 (if throws then s
                  else set_notifications (notifications s ++ [notificationFor c m s]) s))
    as Hs'.
  { subst s'. unfold notifyEffect. rewrite Hp, Hu, Hc, Hlast, Hseen.
    apply String.eqb_neq in Hother. by rewrite Hother. }
  split_and!.
  - rewrite Hs'. by destruct throws.
  - rewrite Hs'. by destruct throws.
  - done.
  - intros hidden' throws'. apply (notifyEffect_on_token hidden' throws' s' m);
      rewrite Hs'; by destruct throws.
Qed.

(** X16.  The notification effect settles: it lists the token among its
    dependencies and writes it, so it runs again after it has notified, and
    that second run, whatever the page and the platform do, changes
    nothing. *)
Theorem notifyEffect_settles throws hidden' throws' s :
  notifyEffect hidden' throws' (notifyEffect true throws s) = notifyEffect true throws s.
Proof.
  destruct (notificationPermission s) eqn:Hp, (currentUser s) as [u|] eqn:Hu,
    (activeChat s) as [c|] eqn:Hc, (last (messages s)) as [m|] eqn:Hlast;
    try (assert (∀ hidden throws, notifyEffect hidden throws s = s) as Hsilent
           by (intros; unfold notifyEffect; by rewrite Hp, ?Hu, ?Hc, ?Hlast);
         by rewrite !Hsilent).
  destruct (negb (isNotified m s) && negb (String.eqb (senderId m) (User_id u)))
    eqn:Hdue.
  - apply (notifyEffect_on_token _ _ _ m);
      unfold notifyEffect; rewrite Hp, Hu, Hc, Hlast, Hdue; by destruct throws.
  - assert (∀ hidden throws, notifyEffect hidden throws s = s) as Hsilent
      by (intros; unfold notifyEffect; by rewrite Hp, Hu, Hc, Hlast, Hdue).
    by rewrite !Hsilent.
Qed.

End NotificationsMore.
Lemma notifyEffect_silent_witness :
  let s := set_messages [Sample.fromBob "1700000000000"] Sample.loggedIn in
  notifyEffect false false s = s.
Proof.
  apply (notifyEffect_silent false false
           (set_messages [Sample.fromBob "1700000000000"] Sample.loggedIn)).
  do 4 right. left. reflexivity.
Defined.

Lemma notifyEffect_raises_witness :
  let s := set_messages [Sample.fromBob "1700000000000"] Sample.loggedIn in
  lastNotifiedMessageId (notifyEffect true false s) = Some "1700000000000"
  ∧ lastNotifiedMessageId (notifyEffect true true s) = Some "1700000000000"
  ∧ notifications (notifyEffect true true s) = [].
Proof.
  destruct (notifyEffect_raises false
              (set_messages [Sample.fromBob "1700000000000"] Sample.loggedIn)
              Sample.alice Sample.chatWithBob (Sample.fromBob "1700000000000")
              eq_refl eq_refl eq_refl eq_refl) as (Htoken & _); [discriminate..|].
  destruct (notifyEffect_raises true
              (set_messages [Sample.fromBob "1700000000000"] Sample.loggedIn)
              Sample.alice Sample.chatWithBob (Sample.fromBob "1700000000000")
              eq_refl eq_refl eq_refl eq_refl) as (Hrefused & Hnone & _);
    [discriminate..|].
  split; [exact Htoken|]. split; [exact Hrefused | exact Hnone].
Defined.

(** ** More on ids and on the notification body *)

Section IdsMore.

Context {Number : Type}.
Variable numberToString : Number → string.
Variable Date_now : nat → Z.
Implicit Types (s : State Number) (u : User Number) (c : Chat).

(** X17.  Let every reading of the clock return more than the one before it.
    Of two messages created by successive invocations of [sendMessage] (any
    operations may run in between), the later one has a different id and a
    strictly greater timestamp, and each message's timestamp is greater than
    the number its own id is the text of. *)
Theorem successive_sends_distinct_ids s events u1 c1 msg1 ty1 ai1 u2 c2 msg2 ty2 :
  (∀ i j : nat, (i < j)%nat → Date_now i < Date_now j) →
  currentUser s = Some u1 → activeChat s = Some c1 →
  let s' := run numberToString Date_now events
              (state_of (sendMessage Date_now msg1 ty1 ai1 s)) in
  currentUser s' = Some u2 → activeChat s' = Some c2 →
  ∃ m1 m2 : Message,
    getMessages (Chat_id c1) (storage (sendMessage_sync Date_now msg1 ty1 s))
      = getMessages (Chat_id c1) (storage s) ++ [m1]
    ∧ getMessages (Chat_id c2) (storage (sendMessage_sync Date_now msg2 ty2 s'))
      = getMessages (Chat_id c2) (storage s') ++ [m2]
    ∧ Message_id m1 ≠ Message_id m2
    ∧ timestamp m1 < timestamp m2
    ∧ (∃ read1, Message_id m1 = pretty read1 ∧ read1 < timestamp m1)
    ∧ (∃ read2, Message_id m2 = pretty read2 ∧ read2 < timestamp m2).
Proof.
  intros Hstrict Hu1 Hc1 s' Hu2 Hc2.
  destruct (sendMessage_sync_appends Date_now s u1 c1 msg1 ty1 Hu1 Hc1)
    as (Hstore1 & _ & _ & Hreads1).
  destruct (sendMessage_sync_appends Date_now s' u2 c2 msg2 ty2 Hu2 Hc2)
    as (Hstore2 & _ & _ & _).
  assert (S (S (clockReads s)) ≤ clockReads s')%nat as Hlater.
  { assert (S (S (clockReads s))
            ≤ clockReads (state_of (sendMessage Date_now msg1 ty1 ai1 s)))%nat as Hfirst.
    { unfold sendMessage. rewrite Hu1, Hc1.
      destruct ty1, ai1; simpl; try destruct a; cells; rewrite ?Hreads1; try lia;
        rewrite (sendMessage_sync_present Date_now s u1 c1 msg1 _ Hu1 Hc1);
        cells; lia. }
    pose proof (run_clockReads numberToString Date_now events
                  (state_of (sendMessage Date_now msg1 ty1 ai1 s))) as Hrun.
    fold s' in Hrun. lia. }
  exists (newMessage Date_now u1 c1 msg1 ty1 s), (newMessage Date_now u2 c2 msg2 ty2 s').
  split_and!; [done | done | | | |].
  - simpl. intros Heq. apply (inj pretty) in Heq.
    pose proof (Hstrict (clockReads s) (clockReads s')) as Hlt. lia.
  - simpl. apply Hstrict. lia.
  - eexists. split; [reflexivity|]. simpl. apply Hstrict. lia.
  - eexists. split; [reflexivity|]. simpl. apply Hstrict. lia.
Qed.

End IdsMore.

Lemma successive_sends_distinct_ids_witness :
  let s1 := state_of (sendMessage Sample.tickingClock "one" send_text
                        (Fulfilled None) Sample.loggedIn) in
  ∃ m1 m2 : Message,
    getMessages "u-alice_u-bob" (storage s1) = [m1]
    ∧ getMessages "u-alice_u-bob"
        (storage (sendMessage_sync Sample.tickingClock "two" send_text s1)) = [m1; m2]
    ∧ Message_id m1 ≠ Message_id m2
    ∧ timestamp m1 < timestamp m2.
Proof.
  destruct (successive_sends_distinct_ids pretty Sample.tickingClock Sample.loggedIn []
              Sample.alice Sample.chatWithBob "one" send_text (Fulfilled None)
              Sample.alice Sample.chatWithBob "two" send_text
              ltac:(intros; unfold Sample.tickingClock; lia) eq_refl eq_refl
              eq_refl eq_refl)
    as (m1 & m2 & Hfirst & Hsecond & Hid & Hlt & _).
  exists m1, m2. split_and!; [exact Hfirst | | exact Hid | exact Hlt].
  etrans; [exact Hsecond|]. cbn [run fold_left].
  change (getMessages (Chat_id Sample.chatWithBob) _)
    with (getMessages (Chat_id Sample.chatWithBob)
            (storage (sendMessage_sync Sample.tickingClock "one" send_text Sample.loggedIn))).
  by rewrite Hfirst.
Defined.

(** [s.length] of a concatenation. *)
Lemma utf16Length_app (a b : string) :
  utf16Length (a +:+ b) = (utf16Length a + utf16Length b)%nat.
Proof. induction a as [|x a IH]; simpl; [done|]. rewrite IH. lia. Qed.

Lemma utf16Units_le b : (utf16Units b ≤ 2)%nat.
Proof. unfold utf16Units. repeat case_match; lia. Qed.

Lemma utf16Units_continuation (n : N) :
  utf16Units (Ascii.ascii_of_N (128 + n mod 64)) = 0%nat.
Proof.
  assert (n `mod` 64 < 64)%N as Hlt by (apply N.mod_lt; lia).
  destruct (n `mod` 64)%N as [|p]; [done|].
  do 7 (destruct p as [p|p|]; try lia; try reflexivity).
Qed.

Lemma utf16Length_highSurrogate b0 b1 b2 b3 :
  utf16Length (highSurrogate b0 b1 b2 b3) = 1%nat.
Proof.
  unfold highSurrogate. cbv zeta. cbn [utf16Length].
  by rewrite !utf16Units_continuation.
Qed.

(** [s.substring(0, k)] has at most [k] code units. *)
Lemma utf16Length_prefix (s : string) : ∀ k, (utf16Length (utf16Prefix k s) ≤ k)%nat.
Proof.
  induction s as [|b rest IH]; intros k; cbn [utf16Prefix utf16Length]; [lia|].
  pose proof (utf16Units_le b) as Hle.
  destruct (utf16Units b) as [|[|n]] eqn:Hunits.
  - cbn [utf16Length]. rewrite Hunits. apply IH.
  - destruct k as [|k]; cbn [utf16Length]; [lia|]. rewrite Hunits.
    specialize (IH k). lia.
  - destruct k as [|[|k]]; cbn [utf16Length]; [lia| |].
    + destruct rest as [|b1 [|b2 [|b3 rest]]]; cbn [utf16Length]; try lia.
      by rewrite utf16Length_highSurrogate.
    + rewrite Hunits. specialize (IH k). lia.
Qed.

(** X18.  The body of a notification never has more than 100 UTF-16 code
    units: a text of at most 100 units is shown as it is, and a longer one is
    cut to at most 97 units followed by three dots; the bodies shown for a
    position, an AI query and an AI response are fixed and do not show the
    content. *)
Theorem notificationBody_bounded (m : Message) :
  (utf16Length (notificationBody m) ≤ 100)%nat
  ∧ (Message_type m = text → (utf16Length (content m) ≤ 100)%nat →
     notificationBody m = content m)
  ∧ (Message_type m = text → (100 < utf16Length (content m))%nat →
     ∃ kept, notificationBody m = kept +:+ "..."
             ∧ kept = utf16Prefix 97 (content m)
             ∧ (utf16Length kept ≤ 97)%nat)
  ∧ (Message_type m = location → notificationBody m = "Coordonnées GPS partagées")
  ∧ (Message_type m = ai_query → notificationBody m = "Question posée à l'IA")
  ∧ (Message_type m = ai_response → notificationBody m = "Réponse de l'IA reçue").
Proof.
  split_and!.
  - unfold notificationBody.
    destruct (Nat.ltb 100 _) eqn:Hlong.
    + rewrite utf16Length_app.
      pose proof (utf16Length_prefix
                    (match Message_type m with
                     | location => "Coordonnées GPS partagées"
                     | ai_query => "Question posée à l'IA"
                     | ai_response => "Réponse de l'IA reçue"
                     | text => content m
                     end) 97) as Hcut.
      change (utf16Length "...") with 3%nat. lia.
    + apply Nat.ltb_ge in Hlong. exact Hlong.
  - intros Hty Hshort. unfold notificationBody. rewrite Hty.
    apply Nat.ltb_ge in Hshort. by rewrite Hshort.
  - intros Hty Hlong. unfold notificationBody. rewrite Hty.
    apply Nat.ltb_lt in Hlong. rewrite Hlong.
    eexists. split; [reflexivity|]. split; [reflexivity|]. apply utf16Length_prefix.
  - intros Hty. unfold notificationBody. by rewrite Hty.
  - intros Hty. unfold notificationBody. by rewrite Hty.
  - intros Hty. unfold notificationBody. by rewrite Hty.
Qed.

Lemma notificationBody_bounded_witness :
  let m := Sample.fromBob "1700000000000" in
  (utf16Length (notificationBody m) ≤ 100)%nat ∧ notificationBody m = "hello".
Proof.
  destruct (notificationBody_bounded (Sample.fromBob "1700000000000"))
    as (Hbound & Hshort & _).
  split; [exact Hbound|]. apply Hshort; [reflexivity|]. vm_compute. lia.
Defined.
